(** * Email sync system: categorisation, reply retrieval, connector lifecycle

    A shallow embedding of the TypeScript services of the email
    synchronisation backend, and the properties its specification states
    about them.

    Strings are modelled as [string] (sequences of 8-bit characters): the
    texts the rules look at are ASCII, [toLowerCase] folds [A-Z] to [a-z]
    and leaves every other character alone, and [/\s/] is the ASCII white
    space (tab, line feed, vertical tab, form feed, carriage return, space).
    JavaScript numbers that the code produces by dividing two array lengths
    are modelled as exact rationals extended with [NaN] and [Infinity]:
    division of doubles is correctly rounded, so for lengths below 2^26 two
    quotients compare as the rationals do. *)

From Stdlib Require Import Ascii String QArith Sorted.
From stdpp Require Import gmap strings list fin_maps sorting.

Local Open Scope string_scope.
Local Open Scope list_scope.

(* ===================================================================== *)
(** ** JavaScript primitives used by the services *)
(* ===================================================================== *)

Module JS.

(** [/[A-Z]/] *)
Definition isUpper (c : ascii) : bool :=
  let n := nat_of_ascii c in (65 <=? n)%nat && (n <=? 90)%nat.

Definition lowerChar (c : ascii) : ascii :=
  if isUpper c then ascii_of_nat (nat_of_ascii c + 32) else c.

(** [s.toLowerCase()] *)
Fixpoint toLowerCase (s : string) : string :=
  match s with
  | EmptyString => EmptyString
  | String c s' => String (lowerChar c) (toLowerCase s')
  end.

(** [s.startsWith(p)] *)
Fixpoint startsWith (s p : string) : bool :=
  match p, s with
  | EmptyString, _ => true
  | String _ _, EmptyString => false
  | String a p', String b s' => if Ascii.eqb a b then startsWith s' p' else false
  end.

(** [s.includes(p)]: [p] occurs in [s] at some offset. *)
Fixpoint includes (s p : string) : bool :=
  startsWith s p ||
  match s with
  | EmptyString => false
  | String _ s' => includes s' p
  end.

(** [arr.some(f)] *)
Definition some {A} (f : A → bool) (arr : list A) : bool := existsb f arr.

(** [arr.includes(x)] on an array of strings. *)
Definition arrayIncludes (arr : list string) (x : string) : bool :=
  existsb (String.eqb x) arr.

(** [`${a} ${b}`] *)
Definition template2 (a b : string) : string := a +:+ " " +:+ b.

(** [/\s/] on ASCII. *)
Definition isSpace (c : ascii) : bool :=
  let n := nat_of_ascii c in
  ((9 <=? n)%nat && (n <=? 13)%nat) || (n =? 32)%nat.

(** [s.split(/\s+/)]: the pieces of [s] between maximal runs of white
    space.  A run at the very start or the very end of [s] leaves an empty
    piece there, and the empty string splits into one empty piece. *)
Fixpoint split (s : string) : list string :=
  match s with
  | EmptyString => [EmptyString]
  | String c s' =>
      let r := split s' in
      if isSpace c then
        match s' with
        | String c' _ => if isSpace c' then r else EmptyString :: r
        | EmptyString => EmptyString :: r
        end
      else
        match r with
        | w :: ws => String c w :: ws
        | [] => [String c EmptyString]
        end
  end.

(** [(s.match(/[A-Z]/g) || []).length] *)
Fixpoint countUpper (s : string) : nat :=
  match s with
  | EmptyString => 0
  | String c s' => (if isUpper c then 1 else 0) + countUpper s'
  end.

(** The values of type [number] that a quotient of two lengths can take. *)
Inductive number : Type :=
| NaN
| Infinity
| Num (q : Q).

(** [a / b] for two non-negative integers: [0 / 0] is [NaN], [a / 0] is
    [Infinity] for [a > 0]. *)
Definition div (a b : nat) : number :=
  match b with
  | O => match a with O => NaN | S _ => Infinity end
  | S _ => Num (Z.of_nat a # Pos.of_nat b)
  end.

Definition Qlt_bool (x y : Q) : bool := negb (Qle_bool y x).

(** [x > y]; every comparison with [NaN] is false. *)
Definition gt (x y : number) : bool :=
  match x, y with
  | NaN, _ | _, NaN => false
  | Infinity, Infinity => false
  | Infinity, Num _ => true
  | Num _, Infinity => false
  | Num p, Num q => Qlt_bool q p
  end.


(** The sign of [x - y] as a sort comparator sees it: [NaN] counts as 0. *)
Definition subSign (x y : number) : comparison :=
  match x, y with
  | NaN, _ | _, NaN => Eq
  | Infinity, Infinity => Eq
  | Infinity, Num _ => Gt
  | Num _, Infinity => Lt
  | Num p, Num q => Qcompare p q
  end.

(** The line feed of a template literal that runs over several lines. *)
Definition LF : string := String (ascii_of_nat 10) EmptyString.

(** [arr.join(sep)] *)
Fixpoint join (sep : string) (arr : list string) : string :=
  match arr with
  | [] => EmptyString
  | [x] => x
  | x :: rest => x +:+ sep +:+ join sep rest
  end.

(** A template literal written over several source lines. *)
Definition lines (ls : list string) : string := join LF ls.

(** A string in a boolean position: the empty string is falsy. *)
Definition truthy (s : string) : bool :=
  match s with EmptyString => false | String _ _ => true end.

(** [arr.sort(compareFn)].  The language standard fixes the result for a
    consistent comparator: the elements in the order of [compareFn], those
    it does not separate left in their original order.  It is computed here
    by insertion from the right: an element moves past exactly those
    elements [y] to its right for which [compareFn x y > 0]. *)
Section Sort.
Context {A : Type} (compareFn : A → A → comparison).

Fixpoint insertSorted (x : A) (l : list A) : list A :=
  match l with
  | [] => [x]
  | y :: l' =>
      match compareFn x y with
      | Gt => y :: insertSorted x l'
      | _ => x :: l
      end
  end.

Fixpoint sort (l : list A) : list A :=
  match l with
  | [] => []
  | x :: l' => insertSorted x (sort l')
  end.

End Sort.

(** [arr.slice(0, n)] *)
Definition slice0 {A} (n : nat) (arr : list A) : list A := take n arr.

End JS.

(* ===================================================================== *)
(** ** types/index.ts *)
(* ===================================================================== *)

Inductive EmailCategory : Type :=
| INTERESTED
| MEETING_BOOKED
| NOT_INTERESTED
| SPAM
| OUT_OF_OFFICE
| UNCATEGORIZED.

(** The string value of each member of the enum. *)
Definition categoryValue (c : EmailCategory) : string :=
  match c with
  | INTERESTED => "Interested"
  | MEETING_BOOKED => "Meeting Booked"
  | NOT_INTERESTED => "Not Interested"
  | SPAM => "Spam"
  | OUT_OF_OFFICE => "Out of Office"
  | UNCATEGORIZED => "Uncategorized"
  end.

(** [Object.values(EmailCategory)] *)
Definition EmailCategory_values : list string :=
  map categoryValue
    [INTERESTED; MEETING_BOOKED; NOT_INTERESTED; SPAM; OUT_OF_OFFICE; UNCATEGORIZED].

Record Email : Type := mkEmail {
  id : string;
  accountId : string;
  folder : string;
  from : string;
  to : list string;
  subject : string;
  body : string;
  date : Z;
  uid : Z;
  category : option EmailCategory;
  html : option string
}.

(* ===================================================================== *)
(** ** services/categorization.service.ts *)
(* ===================================================================== *)

Module CategorizationService.

Definition outOfOfficePatterns : list string :=
  [ "out of office"; "out of the office"; "ooo"; "automatic reply";
    "auto reply"; "away from office"; "on vacation"; "on leave";
    "currently unavailable"; "away from my desk"; "not in the office";
    "limited access to email" ].

Definition spamPatterns : list string :=
  [ "congratulations you won"; "claim your prize"; "click here now";
    "limited time offer"; "act now"; "free money"; "nigerian prince";
    "verify your account"; "suspended account"; "unusual activity";
    "confirm your password"; "you have been selected"; "winner";
    "lottery"; "casino"; "viagra"; "pharmacy"; "weight loss";
    "make money fast"; "work from home"; "no credit check"; "refinance" ].

Definition meetingBookedPatterns : list string :=
  [ "meeting confirmed"; "meeting scheduled"; "meeting booked";
    "calendar invitation"; "event invitation"; "has invited you";
    "meeting invite"; "scheduled a meeting"; "accepted your meeting";
    "meeting accepted"; "zoom meeting"; "google meet"; "teams meeting";
    "calendar event"; "appointment confirmed"; "scheduled for";
    "meeting on"; "see you at" ].

Definition interestedPatterns : list string :=
  [ "interested"; "would like to know more"; "tell me more";
    "sounds interesting"; "sounds good"; "looks promising";
    "let's discuss"; "let's talk"; "let's schedule"; "can we talk";
    "would like to discuss"; "want to learn more"; "please share more";
    "send me more information"; "more details"; "please call";
    "looking forward"; "excited to"; "great opportunity";
    "resume shortlisted"; "profile shortlisted"; "congratulations";
    "move forward"; "next steps"; "interview"; "technical round";
    "when are you available"; "available for a call"; "schedule a call";
    "let's connect" ].

Definition notInterestedPatterns : list string :=
  [ "not interested"; "no longer interested"; "not a good fit";
    "not the right fit"; "pass on this"; "decline"; "not at this time";
    "maybe later"; "not right now"; "thank you for your interest";
    "we have decided"; "went with another"; "selected another candidate";
    "position has been filled"; "no thank"; "unsubscribe"; "remove me";
    "stop sending"; "not hiring"; "budget constraints"; "unfortunately";
    "regret to inform"; "unable to proceed" ].

Definition isOutOfOffice (text : string) : bool :=
  JS.some (fun pattern => JS.includes text pattern) outOfOfficePatterns.

Definition hasSpamPattern (text : string) : bool :=
  JS.some (fun pattern => JS.includes text pattern) spamPatterns.

Definition capsPercentage (email : Email) : JS.number :=
  JS.div (JS.countUpper (subject email)) (String.length (subject email)).

Definition excessiveCaps (email : Email) : bool :=
  JS.gt (capsPercentage email) (JS.Num (1 # 2))
  && (10 <? String.length (subject email))%nat.

Definition suspiciousFrom (email : Email) : bool :=
  JS.includes (from email) "noreply"
  || JS.includes (from email) "no-reply"
  || negb (JS.includes (from email) "@").

Definition isSpam (text : string) (email : Email) : bool :=
  hasSpamPattern text || (excessiveCaps email && suspiciousFrom email).

Definition isMeetingBooked (text : string) : bool :=
  JS.some (fun pattern => JS.includes text pattern) meetingBookedPatterns.

Definition isInterested (text : string) : bool :=
  JS.some (fun pattern => JS.includes text pattern) interestedPatterns.

Definition isNotInterested (text : string) : bool :=
  JS.some (fun pattern => JS.includes text pattern) notInterestedPatterns.

(** The text every rule looks at. *)
Definition textOf (email : Email) : string :=
  JS.toLowerCase (JS.template2 (subject email) (body email)).

Definition categorizeEmail (email : Email) : EmailCategory :=
  let text := textOf email in
  if isOutOfOffice text then OUT_OF_OFFICE
  else if isSpam text email then SPAM
  else if isMeetingBooked text then MEETING_BOOKED
  else if isInterested text then INTERESTED
  else if isNotInterested text then NOT_INTERESTED
  else UNCATEGORIZED.

End CategorizationService.


(* ===================================================================== *)
(** ** Asynchronous code: results, exceptions and a world that is threaded *)
(* ===================================================================== *)

(** An [async] method either resolves to a value or rejects; a [try] block
    catches the rejection of what it awaits.  [M W A] is such a computation
    over a world [W] that it may change before it fails. *)
Module Async.

Inductive result (A : Type) : Type :=
| Ok (a : A)
| Throw (err : string).
Arguments Ok {A} a.
Arguments Throw {A} err.

Definition M (W A : Type) : Type := W → result A * W.

Definition ret {W A} (a : A) : M W A := fun w => (Ok a, w).

Definition throw {W A} (err : string) : M W A := fun w => (Throw err, w).

Definition bind {W A B} (c : M W A) (k : A → M W B) : M W B :=
  fun w =>
    match c w with
    | (Ok a, w') => k a w'
    | (Throw err, w') => (Throw err, w')
    end.

(** [try { c } catch (error) { handler(error) }] *)
Definition tryCatch {W A} (c : M W A) (handler : string → M W A) : M W A :=
  fun w =>
    match c w with
    | (Ok a, w') => (Ok a, w')
    | (Throw err, w') => handler err w'
    end.

Definition get {W} : M W W := fun w => (Ok w, w).

Definition modify {W} (f : W → W) : M W unit := fun w => (Ok tt, f w).

End Async.

Notation "'let*' x ':=' c 'in' k" := (Async.bind c (fun x => k))
  (at level 10, x name, c at level 100, k at level 200).

(* ===================================================================== *)
(** ** services/rag.service.ts *)
(* ===================================================================== *)

Module ContextDocument.
Record t : Type := mk { id : string; text : string }.
End ContextDocument.

(** The part of the chat-completion client that the service touches: a
    request goes out, and either the call rejects or a completion comes
    back whose first choice carries a content that may be [null]. *)
Module OpenAI.

Record ChatMessage : Type := { role : string; content : string }.

Record ChatRequest : Type := {
  model : string;
  messages : list ChatMessage;
  max_tokens : nat;
  temperature : Q
}.

Record Choice : Type := { message_content : option string }.

Record ChatCompletion : Type := { choices : list Choice }.

Definition client : Type := ChatRequest → Async.result ChatCompletion.

End OpenAI.

Module RAGService.

Record t : Type := mk {
  openai : option OpenAI.client;
  contextDocs : list ContextDocument.t
}.

(** The documents [initializeVectorDB] installs, [config.productContext]
    first. *)
Definition initialContextDocs (productContext : string) : list ContextDocument.t :=
  [ ContextDocument.mk "product_context" productContext;
    ContextDocument.mk "meeting_link"
      "For scheduling meetings, use this link: https://cal.com/example";
    ContextDocument.mk "availability"
      "I am available for meetings and discussions. Please feel free to book a time slot that works for you.";
    ContextDocument.mk "interest_response"
      "Thank you for your interest! I would be happy to discuss this opportunity further.";
    ContextDocument.mk "interview_ready"
      "Thank you for considering my profile. I am available for interviews and technical discussions." ].

(** The constructor: a client only when an API key is configured. *)
Definition new (client : option OpenAI.client) (productContext : string) : t :=
  mk client (initialContextDocs productContext).

Definition addContextDocument (id text : string) (self : t) : t :=
  mk (openai self) (contextDocs self ++ [ContextDocument.mk id text]).

Definition calculateSimilarity (text1 text2 : string) : JS.number :=
  let words1 := JS.split (JS.toLowerCase text1) in
  let words2 := JS.split (JS.toLowerCase text2) in
  let common := filter (fun word => Is_true (JS.arrayIncludes words2 word)) words1 in
  JS.div (length common) (Nat.max (length words1) (length words2)).

(** [scored]: every document with its score, in the order of [contextDocs]. *)
Definition scoreDocs (self : t) (emailText : string)
  : list (ContextDocument.t * JS.number) :=
  map (fun doc => (doc, calculateSimilarity emailText (ContextDocument.text doc)))
      (contextDocs self).

(** [(a, b) => b.score - a.score] *)
Definition byScoreDesc (a b : ContextDocument.t * JS.number) : comparison :=
  JS.subSign (snd b) (snd a).

(** [scored] after [scored.sort(...)] and [slice(0, 3)]. *)
Definition topScored (self : t) (emailText : string)
  : list (ContextDocument.t * JS.number) :=
  JS.slice0 3 (JS.sort byScoreDesc (scoreDocs self emailText)).

(** The method reads [this.contextDocs] and sorts the fresh array [scored]
    in place: the service it returns is the one it was given. *)
Definition retrieveRelevantContext (emailText : string) (self : t)
  : list string * t :=
  (map (fun item => ContextDocument.text (fst item)) (topScored self emailText), self).

Definition template_interview : string :=
  JS.lines
    [ "Thank you for reaching out! I'm very interested in discussing this opportunity further. I'm available for an interview at your convenience. Please feel free to book a time slot that works best for you: https://cal.com/example";
      EmptyString;
      "Looking forward to speaking with you!";
      EmptyString;
      "Best regards" ].

Definition template_shortlisted : string :=
  JS.lines
    [ "Thank you for considering my profile! I'm excited about this opportunity and would be happy to proceed with the next steps. ";
      EmptyString;
      "I'm available for an interview or discussion at your convenience. You can book a time slot here: https://cal.com/example";
      EmptyString;
      "Looking forward to connecting!";
      EmptyString;
      "Best regards" ].

Definition template_interest : string :=
  JS.lines
    [ "Thank you for your interest! I would be delighted to discuss this opportunity in more detail. ";
      EmptyString;
      "I'm available for a call or meeting. Please feel free to schedule a time that works for you: https://cal.com/example";
      EmptyString;
      "Best regards" ].

Definition template_technical : string :=
  JS.lines
    [ "Thank you for your email! I'd be happy to discuss my technical background and experience in detail. ";
      EmptyString;
      "I'm available for a technical discussion at your convenience. You can schedule a meeting here: https://cal.com/example";
      EmptyString;
      "Looking forward to our conversation!";
      EmptyString;
      "Best regards" ].

Definition template_default : string :=
  JS.lines
    [ "Thank you for reaching out! I appreciate your interest and would be happy to discuss this further.";
      EmptyString;
      "I'm available for a call or meeting. Please schedule a time that works for you: https://cal.com/example";
      EmptyString;
      "Best regards" ].

Definition templates : list string :=
  [ template_interview; template_shortlisted; template_interest;
    template_technical; template_default ].

Definition generateWithRules (email : Email) (context : list string) : string :=
  let emailText := JS.toLowerCase (JS.template2 (subject email) (body email)) in
  if JS.includes emailText "interview"
     || JS.includes emailText "schedule"
     || JS.includes emailText "available"
     || JS.includes emailText "when are you free"
  then template_interview
  else if JS.includes emailText "shortlisted"
          || JS.includes emailText "selected"
          || JS.includes emailText "congratulations"
  then template_shortlisted
  else if JS.includes emailText "interested"
          || JS.includes emailText "opportunity"
          || JS.includes emailText "position"
  then template_interest
  else if JS.includes emailText "technical"
          || JS.includes emailText "skills"
          || JS.includes emailText "experience"
  then template_technical
  else template_default.

Definition prompt (email : Email) (context : list string) : string :=
  JS.lines
    [ "You are an AI assistant helping to draft professional email replies.";
      EmptyString;
      "Context about the user:";
      JS.join (JS.LF +:+ JS.LF) context;
      EmptyString;
      "Email received:";
      "From: " +:+ from email;
      "Subject: " +:+ subject email;
      "Body: " +:+ body email;
      EmptyString;
      "Generate a professional, concise reply to this email. The reply should:";
      "1. Be friendly and professional";
      "2. Address the main points in the email";
      "3. Include relevant information from the context (like meeting links if discussing scheduling)";
      "4. Be concise (2-4 sentences)";
      "5. End with a clear call-to-action if needed";
      EmptyString;
      "Reply:" ].

Definition chatRequest (email : Email) (context : list string) : OpenAI.ChatRequest :=
  {| OpenAI.model := "gpt-3.5-turbo";
     OpenAI.messages :=
       [ {| OpenAI.role := "system";
            OpenAI.content := "You are a professional email assistant that writes clear, concise, and friendly responses." |};
         {| OpenAI.role := "user"; OpenAI.content := prompt email context |} ];
     OpenAI.max_tokens := 200;
     OpenAI.temperature := 7 # 10 |}.

(** [completion.choices[0].message.content]: reading it off a completion
    without choices is a [TypeError]. *)
Definition firstContent (completion : OpenAI.ChatCompletion)
  : Async.M t (option string) :=
  match OpenAI.choices completion with
  | [] => Async.throw "TypeError: Cannot read properties of undefined"
  | choice :: _ => Async.ret (OpenAI.message_content choice)
  end.

(** [await this.openai!.chat.completions.create(...)] *)
Definition create (client : OpenAI.client) (request : OpenAI.ChatRequest)
  : Async.M t OpenAI.ChatCompletion :=
  fun self => (client request, self).

Definition generateWithOpenAI (client : OpenAI.client) (email : Email)
    (context : list string) : Async.M t string :=
  Async.tryCatch
    (let* completion := create client (chatRequest email context) in
     let* content := firstContent completion in
     match content with
     | Some reply =>
         if JS.truthy reply then Async.ret reply
         else Async.ret (generateWithRules email context)
     | None => Async.ret (generateWithRules email context)
     end)
    (fun error => Async.ret (generateWithRules email context)).

Definition generateReply (email : Email) : Async.M t string :=
  fun self =>
    let emailText := JS.template2 (subject email) (body email) in
    let '(relevantContext, self) := retrieveRelevantContext emailText self in
    match openai self with
    | Some client => generateWithOpenAI client email relevantContext self
    | None => Async.ret (generateWithRules email relevantContext) self
    end.

End RAGService.

(* ===================================================================== *)
(** ** services/imap.service.ts: the connector's lifecycle *)
(* ===================================================================== *)

(** The service is an object that reacts to calls from the server
    ([connect], [disconnect]), to events of the IMAP client library
    ([ready], [error], [end], the callback of [openBox]) and to its own
    timers.  The library is the environment: its connection is [Closed],
    [Opening] after [imap.connect()], [Authenticated] once it announced
    [ready], [Closing] after [imap.end()], and it announces [end] when an
    open connection closes, requested or not.  Searching, fetching and
    parsing of messages are outside this model. *)
Module IMAPService.

Inductive Session : Type := Closed | Opening | Authenticated | Closing.

(** What a pending [setTimeout] will run. *)
Inductive Callback : Type :=
| RunConnect      (* [() => this.connect()] *)
| RunIdleCheck.   (* [idleCheck] *)

Record Timer : Type := { delay : N; callback : Callback }.

(** Calls the service makes into the library, in the order it makes them. *)
Inductive Action : Type :=
| ImapConnect
| ImapEnd
| ImapOpenBox
| ImapSearchSince.

Record t : Type := mk {
  connected : bool;
  session : Session;
  readyListener : bool;     (* [imap.once('ready', ...)] not yet used up *)
  errorListener : bool;     (* [imap.once('error', ...)] not yet used up *)
  endListener : bool;       (* [imap.once('end', ...)] not yet used up *)
  mailListeners : nat;      (* [imap.on('mail', ...)] registrations *)
  openInboxPending : nat;   (* [openBox] calls of [openInbox] not yet answered *)
  timers : list Timer;
  actions : list Action
}.

(** [this.imap.state === 'authenticated'] *)
Definition stateIsAuthenticated (self : t) : bool :=
  match session self with
  | Authenticated | Closing => true
  | _ => false
  end.

Definition setConnected (b : bool) (self : t) : t :=
  mk b (session self) (readyListener self) (errorListener self)
     (endListener self) (mailListeners self) (openInboxPending self)
     (timers self) (actions self).

Definition setSession (x : Session) (self : t) : t :=
  mk (connected self) x (readyListener self) (errorListener self)
     (endListener self) (mailListeners self) (openInboxPending self)
     (timers self) (actions self).

Definition setListeners (r e n : bool) (self : t) : t :=
  mk (connected self) (session self) r e n
     (mailListeners self) (openInboxPending self) (timers self) (actions self).

Definition addMailListener (self : t) : t :=
  mk (connected self) (session self) (readyListener self) (errorListener self)
     (endListener self) (S (mailListeners self)) (openInboxPending self)
     (timers self) (actions self).

Definition setOpenInboxPending (k : nat) (self : t) : t :=
  mk (connected self) (session self) (readyListener self) (errorListener self)
     (endListener self) (mailListeners self) k (timers self) (actions self).

Definition setTimers (ts : list Timer) (self : t) : t :=
  mk (connected self) (session self) (readyListener self) (errorListener self)
     (endListener self) (mailListeners self) (openInboxPending self)
     ts (actions self).

Definition call (a : Action) (self : t) : t :=
  mk (connected self) (session self) (readyListener self) (errorListener self)
     (endListener self) (mailListeners self) (openInboxPending self)
     (timers self) (actions self ++ [a]).

(** [setTimeout(cb, ms)] *)
Definition setTimeout (cb : Callback) (ms : N) (self : t) : t :=
  setTimers (timers self ++ [ {| delay := ms; callback := cb |} ]) self.

(** The constructor: a fresh client and the three listeners of
    [setupEventHandlers]. *)
Definition new : t := mk false Closed true true true 0 0 [] [].

(** [this.imap.connect()] *)
Definition imap_connect (self : t) : t :=
  let self := call ImapConnect self in
  match session self with
  | Closed => setSession Opening self
  | _ => self
  end.

(** [this.imap.end()] *)
Definition imap_end (self : t) : t :=
  let self := call ImapEnd self in
  match session self with
  | Closed => self
  | _ => setSession Closing self
  end.

Definition connect (self : t) : t :=
  if negb (connected self) then imap_connect self else self.

Definition disconnect (self : t) : t :=
  if connected self then imap_end self else self.

Definition openInbox (self : t) : t :=
  setOpenInboxPending (S (openInboxPending self)) (call ImapOpenBox self).

Definition fetchRecentEmails (self : t) : t := call ImapSearchSince self.

Definition idleCheck (self : t) : t :=
  let self :=
    if connected self && stateIsAuthenticated self
    then call ImapOpenBox self else self in
  setTimeout RunIdleCheck 60000%N self.

Definition startIdle (self : t) : t := idleCheck (addMailListener self).

(** The three handlers of [setupEventHandlers]. *)
Definition onReady (self : t) : t := openInbox (setConnected true self).

Definition onError (self : t) : t := setConnected false self.

Definition onEnd (self : t) : t :=
  setTimeout RunConnect 5000%N (setConnected false self).

(** The callback of [openBox] in [openInbox]. *)
Definition onInboxOpened (err : bool) (self : t) : t :=
  if err then self else startIdle (fetchRecentEmails self).

Definition runCallback (cb : Callback) (self : t) : t :=
  match cb with
  | RunConnect => connect self
  | RunIdleCheck => idleCheck self
  end.

Inductive Label : Type :=
| CallConnect
| CallDisconnect
| EmitReady
| EmitError
| EmitEnd
| InboxOpened (err : bool)
| TimerFires (n : nat).

(** One step; [None] when the label cannot happen in this state.  The
    library announces [ready] on a connection that is opening, [error] and
    [end] on one that is not closed, and answers an [openBox] that is
    pending.  A [once] listener is removed before it runs; an event no
    listener is registered for is dropped, except [error], which the event
    emitter raises when nobody listens ([None]). *)
Definition step (l : Label) (self : t) : option t :=
  match l with
  | CallConnect => Some (connect self)
  | CallDisconnect => Some (disconnect self)
  | EmitReady =>
      match session self with
      | Opening =>
          let self := setSession Authenticated self in
          if readyListener self
          then Some (onReady (setListeners false (errorListener self) (endListener self) self))
          else Some self
      | _ => None
      end
  | EmitError =>
      match session self with
      | Closed => None
      | _ =>
          if errorListener self
          then Some (onError (setListeners (readyListener self) false (endListener self) self))
          else None
      end
  | EmitEnd =>
      match session self with
      | Closed => None
      | _ =>
          let self := setSession Closed self in
          if endListener self
          then Some (onEnd (setListeners (readyListener self) (errorListener self) false self))
          else Some self
      end
  | InboxOpened err =>
      match openInboxPending self with
      | S k => Some (onInboxOpened err (setOpenInboxPending k self))
      | O => None
      end
  | TimerFires n =>
      match timers self !! n with
      | Some tm => Some (runCallback (callback tm) (setTimers (delete n (timers self)) self))
      | None => None
      end
  end.

Fixpoint run (ls : list Label) (self : t) : option t :=
  match ls with
  | [] => Some self
  | l :: ls' =>
      match step l self with
      | Some self' => run ls' self'
      | None => None
      end
  end.

Definition reconnectPending (self : t) : bool :=
  existsb (fun tm => match callback tm with RunConnect => true | _ => false end)
          (timers self).

End IMAPService.

(* ===================================================================== *)
(** ** The collaborators behind the server: search index, HTTP sinks *)
(* ===================================================================== *)

(** What the outside world keeps and what was asked of it, oldest first. *)
Inductive Call : Type :=
| ClientIndex (docId : string) (document : Email)
| ClientUpdate (docId : string) (newCategory : string)
| SendSlackNotification (email : Email)
| TriggerWebhook (email : Email)
| AxiosPost (url : string).

Record World : Type := mkWorld {
  documents : gmap string Email;
  calls : list Call
}.

(** When the outside world refuses: the index rejects a write, an HTTP
    endpoint rejects a post.  A value says how the outside world answers
    while one message is handled; a statement about several handlings that
    may be answered differently takes one value for each. *)
Record Faults : Type := {
  indexRejects : Email → bool;
  updateRejects : string → string → bool;
  postRejects : string → bool
}.

Record Config : Type := {
  slack_webhookUrl : string;
  webhook_url : string
}.

Definition record (c : Call) : Async.M World unit :=
  Async.modify (fun w => mkWorld (documents w) (calls w ++ [c])).

Definition setCategory (email : Email) (c : option EmailCategory) : Email :=
  mkEmail (id email) (accountId email) (folder email) (from email) (to email)
          (subject email) (body email) (date email) (uid email) c (html email).

Definition EmailCategory_eqb (a b : EmailCategory) : bool :=
  match a, b with
  | INTERESTED, INTERESTED | MEETING_BOOKED, MEETING_BOOKED
  | NOT_INTERESTED, NOT_INTERESTED | SPAM, SPAM
  | OUT_OF_OFFICE, OUT_OF_OFFICE | UNCATEGORIZED, UNCATEGORIZED => true
  | _, _ => false
  end.

(** The enum member a stored category string stands for. *)
Definition categoryOfValue (v : string) : option EmailCategory :=
  find (fun c => String.eqb (categoryValue c) v)
    [INTERESTED; MEETING_BOOKED; NOT_INTERESTED; SPAM; OUT_OF_OFFICE; UNCATEGORIZED].

Module ElasticsearchService.

(** [client.index({ index, id, document })]: an upsert under [id]. *)
Definition client_index (F : Faults) (docId : string) (document : Email)
  : Async.M World unit :=
  let* _ := record (ClientIndex docId document) in
  if indexRejects F document then Async.throw "index rejected"
  else Async.modify (fun w => mkWorld (<[docId := document]> (documents w)) (calls w)).

(** [client.update({ index, id, body: { doc: { category } } })]: a partial
    update of a document that has to exist. *)
Definition client_update (F : Faults) (docId : string) (newCategory : string)
  : Async.M World unit :=
  let* _ := record (ClientUpdate docId newCategory) in
  let* w := Async.get in
  match documents w !! docId with
  | None => Async.throw "document missing"
  | Some _ =>
      if updateRejects F docId newCategory then Async.throw "update rejected"
      else Async.modify (fun w =>
             mkWorld (alter (fun e => setCategory e (categoryOfValue newCategory))
                            docId (documents w))
                     (calls w))
  end.

Definition indexEmail (F : Faults) (email : Email) : Async.M World unit :=
  Async.tryCatch (client_index F (id email) email)
                 (fun error => Async.throw error).

Definition updateEmailCategory (F : Faults) (emailId : string) (newCategory : string)
  : Async.M World unit :=
  Async.tryCatch (client_update F emailId newCategory)
                 (fun error => Async.throw error).

End ElasticsearchService.

Module NotificationService.

(** [axios.post(url, ...)] *)
Definition axios_post (F : Faults) (url : string) : Async.M World unit :=
  let* _ := record (AxiosPost url) in
  if postRejects F url then Async.throw "post rejected" else Async.ret tt.

Definition sendSlackNotification (C : Config) (F : Faults) (email : Email)
  : Async.M World unit :=
  let* _ := record (SendSlackNotification email) in
  if negb (JS.truthy (slack_webhookUrl C)) then Async.ret tt
  else Async.tryCatch (axios_post F (slack_webhookUrl C))
                      (fun error => Async.ret tt).

Definition triggerWebhook (C : Config) (F : Faults) (email : Email)
  : Async.M World unit :=
  let* _ := record (TriggerWebhook email) in
  if negb (JS.truthy (webhook_url C)) then Async.ret tt
  else Async.tryCatch (axios_post F (webhook_url C))
                      (fun error => Async.ret tt).

(** [Promise.all] starts both notifications, the Slack one first, and waits
    for both. *)
Definition notifyInterestedEmail (C : Config) (F : Faults) (email : Email)
  : Async.M World unit :=
  match category email with
  | Some c =>
      if EmailCategory_eqb c INTERESTED then
        let* _ := sendSlackNotification C F email in
        triggerWebhook C F email
      else Async.ret tt
  | None => Async.ret tt
  end.

End NotificationService.

(* ===================================================================== *)
(** ** server.ts: the pipeline coordinator *)
(* ===================================================================== *)

Module EmailSyncServer.

Definition handleNewEmail (C : Config) (F : Faults) (email : Email)
  : Async.M World unit :=
  Async.tryCatch
    (let category := CategorizationService.categorizeEmail email in
     let email := setCategory email (Some category) in
     let* _ := ElasticsearchService.indexEmail F email in
     NotificationService.notifyInterestedEmail C F email)
    (fun error => Async.ret tt).

End EmailSyncServer.

(* ===================================================================== *)
(** ** controllers/email.controller.ts *)
(* ===================================================================== *)

(** A value of a parsed JSON request body. *)
Inductive JsValue : Type :=
| JUndefined
| JNull
| JBool (b : bool)
| JNumber (q : Q)
| JString (s : string)
| JArray     (* some array: never the same value as a string *)
| JObject.   (* some object: never the same value as a string *)

Module EmailController.

Record Request : Type := {
  params_id : string;
  body_category : JsValue
}.

Record Response : Type := {
  status : nat;
  success : bool;
  error : option string;
  message : option string
}.

(** [Object.values(EmailCategory).includes(category)]: only a string can be
    the same value as one of the six strings. *)
Definition isCategoryValue (v : JsValue) : bool :=
  match v with
  | JString s => JS.arrayIncludes EmailCategory_values s
  | _ => false
  end.

Definition asString (v : JsValue) : string :=
  match v with JString s => s | _ => EmptyString end.

Definition updateCategory (F : Faults) (req : Request) : Async.M World Response :=
  Async.tryCatch
    (let id := params_id req in
     let category := body_category req in
     if negb (isCategoryValue category) then
       Async.ret {| status := 400; success := false;
                    error := Some "Invalid category"; message := None |}
     else
       let* _ := ElasticsearchService.updateEmailCategory F id (asString category) in
       Async.ret {| status := 200; success := true; error := None;
                    message := Some "Category updated successfully" |})
    (fun err =>
       Async.ret {| status := 500; success := false;
                    error := Some "Failed to update category"; message := None |}).

End EmailController.

(* ===================================================================== *)
(** ** The specification's wording, where a claim compares the code to it *)
(* ===================================================================== *)

Module Spec.

(** [p] occurs in [text] as a substring. *)
Definition occursIn (p text : string) : Prop :=
  ∃ before after, text = before +:+ p +:+ after.

(** Some phrase of the list occurs in [text]. *)
Definition anyOccurs (phrases : list string) (text : string) : Prop :=
  ∃ p, p ∈ phrases ∧ occursIn p text.

(** The text the rules are evaluated over: subject, a blank and body,
    lower-cased. *)
Definition text (email : Email) : string :=
  JS.toLowerCase (subject email +:+ " " +:+ body email).

(** The compound heuristic of the Spam rule: more than half of the subject
    is capitals, the subject is longer than 10, and the sender contains
    "noreply" or "no-reply" or lacks an "@". *)
Definition spamHeuristic (email : Email) : Prop :=
  (1 # 2 < Z.of_nat (JS.countUpper (subject email))
           # Pos.of_nat (String.length (subject email)))%Q
  ∧ (10 < String.length (subject email))%nat
  ∧ (occursIn "noreply" (from email)
     ∨ occursIn "no-reply" (from email)
     ∨ ¬ occursIn "@" (from email)).

(** The five rules in their fixed order, each stated over its phrase list. *)
Definition orderedRules (email : Email) : list (Prop * EmailCategory) :=
  [ (anyOccurs CategorizationService.outOfOfficePatterns (text email),
     OUT_OF_OFFICE);
    (anyOccurs CategorizationService.spamPatterns (text email)
     ∨ spamHeuristic email,
     SPAM);
    (anyOccurs CategorizationService.meetingBookedPatterns (text email),
     MEETING_BOOKED);
    (anyOccurs CategorizationService.interestedPatterns (text email),
     INTERESTED);
    (anyOccurs CategorizationService.notInterestedPatterns (text email),
     NOT_INTERESTED) ].

(** Ordered rule evaluation: [firstMatch rules default c] when [c] is the
    category of the first rule that holds, or the default when none does. *)
Inductive firstMatch
  : list (Prop * EmailCategory) → EmailCategory → EmailCategory → Prop :=
| firstMatch_none (default : EmailCategory) :
    firstMatch [] default default
| firstMatch_here (holds : Prop) (c : EmailCategory)
    (rest : list (Prop * EmailCategory)) (default : EmailCategory) :
    holds → firstMatch ((holds, c) :: rest) default c
| firstMatch_later (holds : Prop) (c : EmailCategory)
    (rest : list (Prop * EmailCategory)) (default result : EmailCategory) :
    ¬ holds → firstMatch rest default result →
    firstMatch ((holds, c) :: rest) default result.



(** The reply of the structured-generation collaborator, when there is a
    collaborator, its call succeeds and its first choice has a non-empty
    content. *)
Definition collaboratorReply (self : RAGService.t) (email : Email)
    (context : list string) : option string :=
  match RAGService.openai self with
  | None => None
  | Some client =>
      match client (RAGService.chatRequest email context) with
      | Async.Throw _ => None
      | Async.Ok completion =>
          match OpenAI.choices completion with
          | [] => None
          | choice :: _ =>
              match OpenAI.message_content choice with
              | Some reply => if JS.truthy reply then Some reply else None
              | None => None
              end
          end
      end
  end.

End Spec.

(* ===================================================================== *)
(** ** Notions the statements use *)
(* ===================================================================== *)

(** [x] may stand before [y] in an array sorted with [compareFn]. *)
Definition notAfter {A} (compareFn : A → A → comparison) (x y : A) : Prop :=
  compareFn x y ≠ Gt.

(** The words of [text1] that occur among the words of [text2], with their
    repetitions. *)
Definition common (text1 text2 : string) : list string :=
  filter (λ word, word ∈ JS.split (JS.toLowerCase text2))
         (JS.split (JS.toLowerCase text1)).

(** A scored snippet whose score has the value of the rational [q]. *)
Definition sameScore (q : Q) (item : ContextDocument.t * JS.number) : bool :=
  match snd item with
  | JS.Num p => Qeq_bool p q
  | _ => false
  end.

(** A scored snippet whose score is a finite number. *)
Definition isNum (item : ContextDocument.t * JS.number) : Prop :=
  ∃ q, snd item = JS.Num q.

(** What [notifyInterestedEmail] asks of the outside world for a message it
    notifies about. *)
Definition notificationCalls (C : Config) (email : Email) : list Call :=
  [SendSlackNotification email]
  ++ (if JS.truthy (slack_webhookUrl C) then [AxiosPost (slack_webhookUrl C)] else [])
  ++ [TriggerWebhook email]
  ++ (if JS.truthy (webhook_url C) then [AxiosPost (webhook_url C)] else []).

Definition isNotification (c : Call) : bool :=
  match c with
  | SendSlackNotification _ | TriggerWebhook _ => true
  | _ => false
  end.

Definition isPersistence (c : Call) : bool :=
  match c with
  | ClientIndex _ _ | ClientUpdate _ _ => true
  | _ => false
  end.

(** [u] and [p] agree for as long as both last: [p] starts at the head of
    [u], or would if [u] went on suitably. *)
Fixpoint overlaps (u p : string) : bool :=
  match u, p with
  | String a u', String b p' => if Ascii.eqb b a then overlaps u' p' else false
  | _, _ => true
  end.

(** No occurrence of [p] can begin inside [pre], whatever follows [pre]. *)
Fixpoint clearOf (pre p : string) : bool :=
  match pre with
  | EmptyString => true
  | String _ pre' => negb (overlaps pre p) && clearOf pre' p
  end.

(* ===================================================================== *)
(** ** services/imap.service.ts: the message normalizer of [fetchEmails] *)
(* ===================================================================== *)

Module IMAPConfig.
Record t : Type := mk {
  id : string;
  user : string;
  password : string;
  host : string;
  port : Z;
  tls : bool
}.
End IMAPConfig.

(** What the callback of [simpleParser] reads off a parsed mail. *)
Module ParsedMail.

(** [parsed.to]: absent, an array whose items are asked for [.address], or
    an object whose [.value], when it has one, is an array of such items. *)
Inductive Recipients : Type :=
| NoRecipients
| AddressArray (items : list (option string))
| AddressObject (value : option (list (option string))).

Record t : Type := mk {
  from_text : option string;   (* [parsed.from?.text] *)
  to : Recipients;
  subject : option string;
  text : option string;
  html : option string;        (* a string or [false] *)
  date : option Z
}.

End ParsedMail.

Module Normalizer.

(** [x || ''] for a string that may be undefined. *)
Definition orEmpty (x : option string) : string :=
  match x with
  | Some s => if JS.truthy s then s else EmptyString
  | None => EmptyString
  end.

(** [items.map(t => t.address || '')] *)
Definition addresses (items : list (option string)) : list string :=
  map orEmpty items.

Definition recipients (r : ParsedMail.Recipients) : list string :=
  match r with
  | ParsedMail.NoRecipients => []
  | ParsedMail.AddressArray items => addresses items
  | ParsedMail.AddressObject (Some value) => addresses value
  | ParsedMail.AddressObject None => []
  end.

(** The [Email] built in the parser's callback: [uuid] is what [uuidv4()]
    returns, [now] what [new Date()] is, [uid] the variable the
    [attributes] event may have set by then (0 before). *)
Definition normalize (config : IMAPConfig.t) (uuid : string) (now : Z)
    (seqno uid : Z) (parsed : ParsedMail.t) : Email :=
  {| id := IMAPConfig.id config +:+ "-" +:+ uuid;
     accountId := IMAPConfig.id config;
     folder := "INBOX";
     from := orEmpty (ParsedMail.from_text parsed);
     to := recipients (ParsedMail.to parsed);
     subject := orEmpty (ParsedMail.subject parsed);
     body := orEmpty (ParsedMail.text parsed);
     date := match ParsedMail.date parsed with Some d => d | None => now end;
     uid := if (uid =? 0)%Z then seqno else uid;
     category := None;
     html := Some (orEmpty (ParsedMail.html parsed)) |}.

(** The callback of [simpleParser]: a parse error is logged and nothing is
    emitted; otherwise the ['email'] event carries the normalized message. *)
Definition onParsed (config : IMAPConfig.t) (uuid : string) (now : Z)
    (seqno uid : Z) (outcome : Async.result ParsedMail.t) : option Email :=
  match outcome with
  | Async.Throw _ => None
  | Async.Ok parsed => Some (normalize config uuid now seqno uid parsed)
  end.

End Normalizer.

(* ===================================================================== *)
(** ** The rest of the search index service and of the controller *)
(* ===================================================================== *)

Module ElasticsearchQueries.

(** [client.get({ index, id })]: the stored document, or a rejection when
    there is none or the index refuses. *)
Definition client_get (getRejects : string → bool) (docId : string)
  : Async.M World Email :=
  fun w =>
    match documents w !! docId with
    | Some email =>
        if getRejects docId then (Async.Throw "get rejected", w)
        else (Async.Ok email, w)
    | None => (Async.Throw "not found", w)
    end.

Definition getEmailById (getRejects : string → bool) (emailId : string)
  : Async.M World (option Email) :=
  Async.tryCatch
    (let* result := client_get getRejects emailId in Async.ret (Some result))
    (fun error => Async.ret None).

End ElasticsearchQueries.

Module EmailControllerReads.

Record Response : Type := {
  status : nat;
  success : bool;
  error : option string;
  email : option Email;
  suggestedReply : option string;
  confidence : option Q
}.

Definition notFound : Response :=
  {| status := 404; success := false; error := Some "Email not found";
     email := None; suggestedReply := None; confidence := None |}.

Definition failed (what : string) : Response :=
  {| status := 500; success := false; error := Some what;
     email := None; suggestedReply := None; confidence := None |}.

Definition getEmailById (getRejects : string → bool) (id : string)
  : Async.M World Response :=
  Async.tryCatch
    (let* found := ElasticsearchQueries.getEmailById getRejects id in
     match found with
     | None => Async.ret notFound
     | Some e =>
         Async.ret {| status := 200; success := true; error := None;
                      email := Some e; suggestedReply := None;
                      confidence := None |}
     end)
    (fun err => Async.ret (failed "Failed to fetch email")).

(** The controller holds the index service and the reply service. *)
Definition onIndex {A} (c : Async.M World A) : Async.M (World * RAGService.t) A :=
  fun s => let '(r, w) := c (fst s) in (r, (w, snd s)).

Definition onReplies {A} (c : Async.M RAGService.t A)
  : Async.M (World * RAGService.t) A :=
  fun s => let '(r, rag) := c (snd s) in (r, (fst s, rag)).

Definition generateReply (getRejects : string → bool) (id : string)
  : Async.M (World * RAGService.t) Response :=
  Async.tryCatch
    (let* found := onIndex (ElasticsearchQueries.getEmailById getRejects id) in
     match found with
     | None => Async.ret notFound
     | Some e =>
         let* reply := onReplies (RAGService.generateReply e) in
         Async.ret {| status := 200; success := true; error := None;
                      email := Some e; suggestedReply := Some reply;
                      confidence := Some (85 # 100) |}
     end)
    (fun err => Async.ret (failed "Failed to generate reply")).

End EmailControllerReads.

(* ===================================================================== *)
(** ** server.ts: starting and stopping the connectors, delivery *)
(* ===================================================================== *)

Module ServerSetup.

(** [setupIMAPConnections]: one connector per account that has a user and a
    password, each connected as soon as it is made. *)
Definition setupIMAPConnections (accounts : list IMAPConfig.t)
  : list (IMAPConfig.t * IMAPService.t) :=
  foldl (fun imapServices accountConfig =>
           if negb (JS.truthy (IMAPConfig.user accountConfig))
              || negb (JS.truthy (IMAPConfig.password accountConfig))
           then imapServices
           else imapServices ++ [(accountConfig, IMAPService.connect IMAPService.new)])
        [] accounts.

(** [stop] *)
Definition stop (imapServices : list (IMAPConfig.t * IMAPService.t))
  : list (IMAPConfig.t * IMAPService.t) :=
  map (fun service => (fst service, IMAPService.disconnect (snd service)))
      imapServices.

(** The listener [setupIMAPConnections] registers for ['email']. *)
Definition onEmail (C : Config) (F : Faults) (emitted : option Email)
  : Async.M World unit :=
  match emitted with
  | Some email => EmailSyncServer.handleNewEmail C F email
  | None => Async.ret tt
  end.

End ServerSetup.

(** A fetched batch as the server sees it: for every message of the fetch
    the parser's callback runs once, with what [uuidv4()] and [new Date()]
    return then, the sequence number, the [uid] variable at that moment and
    the outcome of the parse; the callbacks are taken one after the other. *)
Module Delivery.

Record Fetched : Type := {
  uuid : string;
  now : Z;
  seqno : Z;
  attrUid : Z;
  outcome : Async.result ParsedMail.t
}.

Definition deliver (C : Config) (F : Faults) (config : IMAPConfig.t) (m : Fetched)
  : Async.M World unit :=
  ServerSetup.onEmail C F
    (Normalizer.onParsed config (uuid m) (now m) (seqno m) (attrUid m) (outcome m)).

Fixpoint deliverAll (C : Config) (F : Faults) (config : IMAPConfig.t)
    (batch : list Fetched) : Async.M World unit :=
  match batch with
  | [] => Async.ret tt
  | m :: rest => let* _ := deliver C F config m in deliverAll C F config rest
  end.

Definition isParsed (m : Fetched) : bool :=
  match outcome m with Async.Ok _ => true | Async.Throw _ => false end.

End Delivery.

(** More notions the statements use. *)

Definition isClientIndex (c : Call) : bool :=
  match c with ClientIndex _ _ => true | _ => false end.

Definition isReconnect (tm : IMAPService.Timer) : bool :=
  match IMAPService.callback tm with
  | IMAPService.RunConnect => true
  | IMAPService.RunIdleCheck => false
  end.

Definition isIdleCheck (tm : IMAPService.Timer) : bool :=
  match IMAPService.callback tm with
  | IMAPService.RunIdleCheck => true
  | IMAPService.RunConnect => false
  end.

(** How many elements of an array pass a test. *)
Fixpoint countWhere {A} (f : A → bool) (l : list A) : nat :=
  match l with
  | [] => 0
  | x :: l' => (if f x then 1 else 0) + countWhere f l'
  end.

Definition isSearchSince (a : IMAPService.Action) : bool :=
  match a with IMAPService.ImapSearchSince => true | _ => false end.

(** An account [setupIMAPConnections] makes a connector for. *)
Definition hasCredentials (account : IMAPConfig.t) : bool :=
  JS.truthy (IMAPConfig.user account) && JS.truthy (IMAPConfig.password account).

(** A connector right after [new IMAPService(...)] and [connect()]. *)
Definition justStarted (service : IMAPService.t) : Prop :=
  IMAPService.connected service = false
  ∧ IMAPService.session service = IMAPService.Opening
  ∧ IMAPService.actions service = [IMAPService.ImapConnect]
  ∧ IMAPService.timers service = [].

(* ===================================================================== *)
(** ** Sample messages, services and worlds *)
(* ===================================================================== *)

Module Samples.

Definition oooAndInterested : Email :=
  mkEmail "account1-1" "account1" "INBOX" "lead@example.com" ["me@example.com"]
          "Re: Interested in your profile"
          "I am out of office until Monday." 0 1 None None.

Definition interviewScheduled (id accountId folder from : string)
    (to : list string) (date uid : Z) (category : option EmailCategory)
    (html : option string) : Email :=
  mkEmail id accountId folder from to
          "Interview scheduled - Backend Engineer"
          "Let's discuss next steps, are you available for a call?"
          date uid category html.

Definition winningOffer : Email :=
  mkEmail "account1-2" "account1" "INBOX" "noreply@bulk.example"
          ["me@example.com"] "WINNING OFFER!!" "Open today." 0 2 None None.

Definition noSubjectLottery : Email :=
  mkEmail "account1-3" "account1" "INBOX" "NOREPLY" []
          EmptyString "You hold the lottery ticket" 0 3 None None.

Definition followUp : Email :=
  mkEmail "account1-4" "account1" "INBOX" "hr@example.com" ["me@example.com"]
          "Backend role" "Your profile matches the position." 0 4 None None.

(** A collaborator whose every call is rejected. *)
Definition failingService : RAGService.t :=
  RAGService.new (Some (λ _, Async.Throw "429 rate limited")) "I am applying for a job position.".

Definition interestedLead : Email :=
  mkEmail "account1-5" "account1" "INBOX" "lead@example.com" ["me@example.com"]
          "Re: proposal" "Sounds good, tell me more." 0 5 None None.

Definition emptyWorld : World := mkWorld ∅ [].

Definition bothSinks : Config :=
  {| slack_webhookUrl := "https://hooks.slack.example/T0";
     webhook_url := "https://webhook.example/in" |}.

(** The index is down. *)
Definition indexDown : Faults :=
  {| indexRejects := λ _, true;
     updateRejects := λ _ _, false;
     postRejects := λ _, false |}.

(** Both HTTP sinks are down, the index is up. *)
Definition sinksDown : Faults :=
  {| indexRejects := λ _, false;
     updateRejects := λ _ _, false;
     postRejects := λ _, true |}.

Definition storedLead : Email :=
  mkEmail "account1-5" "account1" "INBOX" "lead@example.com" ["me@example.com"]
          "Re: proposal" "Sounds good, tell me more." 0 5 (Some INTERESTED) None.

Definition oneMessage : World :=
  mkWorld {[ "account1-5" := storedLead ]} [].

Definition noFaults : Faults :=
  {| indexRejects := λ _, false;
     updateRejects := λ _ _, false;
     postRejects := λ _, false |}.

Import IMAPService.

(** The connector connects, becomes ready, opens the inbox, and is told to
    disconnect; the library then closes the connection. *)
Definition stopAfterReady : list Label :=
  [CallConnect; EmitReady; InboxOpened false; CallDisconnect; EmitEnd].

(** The connector after [stopAfterReady]. *)
Definition stoppedConnector : IMAPService.t :=
  {| connected := false; session := Closed;
     readyListener := false; errorListener := true; endListener := false;
     mailListeners := 1; openInboxPending := 0;
     timers := [ {| delay := 60000; callback := RunIdleCheck |};
                 {| delay := 5000; callback := RunConnect |} ];
     actions := [ImapConnect; ImapOpenBox; ImapSearchSince; ImapOpenBox; ImapEnd] |}.

(** [stoppedConnector] after its reconnect timer fired. *)
Definition reconnectingConnector : IMAPService.t :=
  {| connected := false; session := Opening;
     readyListener := false; errorListener := true; endListener := false;
     mailListeners := 1; openInboxPending := 0;
     timers := [ {| delay := 60000; callback := RunIdleCheck |} ];
     actions := [ImapConnect; ImapOpenBox; ImapSearchSince; ImapOpenBox;
                 ImapEnd; ImapConnect] |}.

End Samples.

Module MoreSamples.

Definition declined : Email :=
  mkEmail "account1-6" "account1" "INBOX" "lead@example.com" ["me@example.com"]
          "Re: proposal" "Thanks, but we are not interested." 0 6 None None.

Definition awayShouting : Email :=
  mkEmail "account1-7" "account1" "INBOX" "lead@example.com" ["me@example.com"]
          "Re: proposal" "I AM OUT OF OFFICE" 0 7 None None.

Definition awayQuiet : Email :=
  mkEmail "account2-1" "account2" "Archive" "lead@example.com" []
          "Re: proposal" "i am out of office" 9 1 (Some SPAM) (Some "<p>away</p>").

Definition autoThenReply : Email :=
  mkEmail "account1-8" "account1" "INBOX" "garage@example.com" ["me@example.com"]
          "Your new auto" "Reply to confirm the delivery date." 0 8 None None.

Definition lotteryFromColleague : Email :=
  mkEmail "account1-9" "account1" "INBOX" "Ann <ann@example.com>" ["me@example.com"]
          "OFFICE LOTTERY POOL" "Are you in?" 0 9 None None.

Definition thanksLower : string := "thank you".

Definition bookingLink : string := "https://cal.com/example".

(** A service without a collaborator that holds the five initial snippets. *)
Definition ruleBased : RAGService.t :=
  RAGService.new None "I am applying for a job position.".

(** The same with one more snippet. *)
Definition ruleBasedGrown : RAGService.t :=
  RAGService.addContextDocument "salary" "My salary expectation is negotiable."
    ruleBased.

Definition account1 : IMAPConfig.t :=
  IMAPConfig.mk "account1" "me@example.com" "app-password" "imap.gmail.com" 993%Z true.

(** An account without a password. *)
Definition account2 : IMAPConfig.t :=
  IMAPConfig.mk "account2" "other@example.com" EmptyString "imap.gmail.com" 993%Z true.

Definition parsedLead : ParsedMail.t :=
  ParsedMail.mk (Some "Lead <lead@example.com>")
    (ParsedMail.AddressObject (Some [Some "me@example.com"]))
    (Some "Re: proposal") (Some "Sounds good, tell me more.") None (Some 1700000000%Z).

Definition uuidA : string := "3f2b8c1e-0000-4000-8000-000000000001".

Definition uuidB : string := "3f2b8c1e-0000-4000-8000-000000000002".

(** Nothing refuses. *)
Definition allUp : Faults :=
  {| indexRejects := λ _, false;
     updateRejects := λ _ _, false;
     postRejects := λ _, false |}.

Definition getsAnswered : string → bool := λ _, false.

(** A fetch of three messages, the second of which does not parse. *)
Definition batchOfThree : list Delivery.Fetched :=
  [ {| Delivery.uuid := uuidA; Delivery.now := 1700000100; Delivery.seqno := 1;
       Delivery.attrUid := 41; Delivery.outcome := Async.Ok parsedLead |};
    {| Delivery.uuid := "3f2b8c1e-0000-4000-8000-000000000003";
       Delivery.now := 1700000101; Delivery.seqno := 2; Delivery.attrUid := 0;
       Delivery.outcome := Async.Throw "Unexpected end of input" |};
    {| Delivery.uuid := uuidB; Delivery.now := 1700000102; Delivery.seqno := 3;
       Delivery.attrUid := 0; Delivery.outcome := Async.Ok parsedLead |} ].

(** The connection drops while it is opening, the connector reconnects, and
    the second connection ends too. *)
Definition dropsTwice : list IMAPService.Label :=
  [IMAPService.CallConnect; IMAPService.EmitEnd; IMAPService.TimerFires 0;
   IMAPService.EmitEnd].

(** The connector after the first three steps of [dropsTwice]: its one
    reconnection is under way. *)
Definition reconnectedOnce : IMAPService.t :=
  {| IMAPService.connected := false; IMAPService.session := IMAPService.Opening;
     IMAPService.readyListener := true; IMAPService.errorListener := true;
     IMAPService.endListener := false; IMAPService.mailListeners := 0;
     IMAPService.openInboxPending := 0; IMAPService.timers := [];
     IMAPService.actions := [IMAPService.ImapConnect; IMAPService.ImapConnect] |}.

(** A connector that was ready, opened its inbox and then lost the
    connection: the reconnect timer and the keep-alive timer are pending. *)
Definition lostAfterReady : IMAPService.t :=
  {| IMAPService.connected := false; IMAPService.session := IMAPService.Closed;
     IMAPService.readyListener := false; IMAPService.errorListener := true;
     IMAPService.endListener := false; IMAPService.mailListeners := 1;
     IMAPService.openInboxPending := 0;
     IMAPService.timers :=
       [ {| IMAPService.delay := 60000; IMAPService.callback := IMAPService.RunIdleCheck |};
         {| IMAPService.delay := 5000; IMAPService.callback := IMAPService.RunConnect |} ];
     IMAPService.actions :=
       [IMAPService.ImapConnect; IMAPService.ImapOpenBox;
        IMAPService.ImapSearchSince; IMAPService.ImapOpenBox] |}.

(** What follows: the reconnect timer fires, the library announces [ready]
    again, the keep-alive timer fires, the server calls [connect] and
    [disconnect]. *)
Definition afterTheLoss : list IMAPService.Label :=
  [IMAPService.TimerFires 1; IMAPService.EmitReady; IMAPService.TimerFires 0;
   IMAPService.CallConnect; IMAPService.CallDisconnect].

End MoreSamples.

(* ===================================================================== *)
(** * Properties *)
(* ===================================================================== *)

Import Samples.

(** ** Strings *)

Lemma some_true {A} (f : A → bool) (arr : list A) :
  JS.some f arr = true ↔ ∃ x, x ∈ arr ∧ f x = true.
Proof.
  unfold JS.some. rewrite existsb_exists.
  split; intros (x & Hx & Hf); exists x; split; auto; by apply list_elem_of_In.
Qed.

Lemma some_ext {A} (f g : A → bool) (arr : list A) :
  (∀ x, x ∈ arr → f x = g x) → JS.some f arr = JS.some g arr.
Proof.
  unfold JS.some. induction arr as [|a arr IH]; intros H; simpl; [done|].
  rewrite (H a) by constructor. f_equal. apply IH.
  intros x Hx. apply H. by constructor.
Qed.

Lemma toLowerCase_app (a b : string) :
  JS.toLowerCase (a +:+ b) = JS.toLowerCase a +:+ JS.toLowerCase b.
Proof. induction a as [|c a IH]; simpl; [done | by rewrite IH]. Qed.

Lemma append_assoc (a b c : string) : a +:+ (b +:+ c) = (a +:+ b) +:+ c.
Proof.
  induction a as [|x a IH]; [done|].
  change (String x (a +:+ (b +:+ c)) = String x ((a +:+ b) +:+ c)).
  by rewrite IH.
Qed.

Lemma startsWith_overlaps (u s p : string) :
  overlaps u p = false → JS.startsWith (u +:+ s) p = false.
Proof.
  revert p. induction u as [|a u IH]; intros [|b p]; simpl; try discriminate.
  destruct (Ascii.eqb b a); [apply IH | done].
Qed.

Lemma includes_clearOf (pre s p : string) :
  clearOf pre p = true → JS.includes (pre +:+ s) p = JS.includes s p.
Proof.
  induction pre as [|c pre IH]; [done|].
  cbn [clearOf]. intros [Ho Hc]%andb_prop.
  apply negb_true_iff in Ho.
  change (JS.startsWith (String c pre +:+ s) p || JS.includes (pre +:+ s) p
          = JS.includes s p).
  by rewrite startsWith_overlaps, IH.
Qed.

(** A literal prefix that no pattern of a list can begin in does not change
    what the list finds. *)
Lemma some_includes_prefix (pre s : string) (patterns : list string) :
  forallb (clearOf pre) patterns = true →
  JS.some (fun pattern => JS.includes (pre +:+ s) pattern) patterns
  = JS.some (fun pattern => JS.includes s pattern) patterns.
Proof.
  intros H. apply some_ext. intros p Hp. apply includes_clearOf.
  rewrite forallb_forall in H. apply H. by apply list_elem_of_In.
Qed.

Lemma append_cons (c : ascii) (a b : string) :
  String c a +:+ b = String c (a +:+ b).
Proof. reflexivity. Qed.

Lemma append_empty_r (a : string) : a +:+ EmptyString = a.
Proof.
  induction a as [|c a IH]; [done|]. by rewrite append_cons, IH.
Qed.

Lemma startsWith_iff (s p : string) :
  JS.startsWith s p = true ↔ ∃ post, s = p +:+ post.
Proof.
  revert s. induction p as [|a p IH]; intros s.
  - split; [intros _; by exists s | by destruct s].
  - destruct s as [|b s]; cbn [JS.startsWith].
    + split; [discriminate | intros [post H]; discriminate].
    + destruct (Ascii.eqb_spec a b) as [->|Hne].
      * rewrite IH. split; intros [post H]; exists post.
        -- by rewrite append_cons, H.
        -- rewrite append_cons in H. by injection H.
      * split; [discriminate|]. intros [post H].
        rewrite append_cons in H. injection H as H1 _. by destruct Hne.
Qed.

Lemma includes_iff (s p : string) :
  JS.includes s p = true ↔ ∃ pre post, s = pre +:+ p +:+ post.
Proof.
  split.
  - induction s as [|c s IH]; cbn [JS.includes]; rewrite orb_true_iff;
      intros [H|H]; try discriminate.
    + apply startsWith_iff in H as [post H]. by exists EmptyString, post.
    + apply startsWith_iff in H as [post H]. by exists EmptyString, post.
    + destruct (IH H) as (pre & post & ->). by exists (String c pre), post.
  - intros (pre & post & ->). induction pre as [|c pre IH].
    + assert (H : JS.startsWith (p +:+ post) p = true)
        by (apply startsWith_iff; by exists post).
      change (EmptyString +:+ p +:+ post) with (p +:+ post).
      destruct (p +:+ post); cbn [JS.includes]; by rewrite H.
    + rewrite append_cons. cbn [JS.includes]. by rewrite IH, orb_true_r.
Qed.

Lemma includes_app_l (a b p : string) :
  JS.includes a p = true → JS.includes (a +:+ b) p = true.
Proof.
  rewrite !includes_iff. intros (pre & post & ->).
  exists pre, (post +:+ b). by rewrite <- !append_assoc.
Qed.

Lemma includes_app_r (a b p : string) :
  JS.includes b p = true → JS.includes (a +:+ b) p = true.
Proof.
  rewrite !includes_iff. intros (pre & post & ->).
  exists (a +:+ pre), post. by rewrite <- !append_assoc.
Qed.

Lemma includes_trans (s p q : string) :
  JS.includes s p = true → JS.includes p q = true → JS.includes s q = true.
Proof.
  rewrite !includes_iff. intros (pre & post & ->) (pre' & post' & ->).
  exists (pre +:+ pre'), (post' +:+ post). by rewrite <- !append_assoc.
Qed.

Lemma lowerChar_idem (c : ascii) : JS.lowerChar (JS.lowerChar c) = JS.lowerChar c.
Proof. destruct c as [[] [] [] [] [] [] [] []]; reflexivity. Qed.

Lemma toLowerCase_idem (s : string) :
  JS.toLowerCase (JS.toLowerCase s) = JS.toLowerCase s.
Proof.
  induction s as [|c s IH]; [done|]. cbn [JS.toLowerCase].
  by rewrite lowerChar_idem, IH.
Qed.

(** ** Numbers *)

Lemma Zpos_of_nat_S (b : nat) : Z.pos (Pos.of_nat (S b)) = Z.of_nat (S b).
Proof. rewrite <- Pos.of_nat_succ, Zpos_P_of_succ_nat. lia. Qed.

Lemma gt_div_half (a b : nat) :
  JS.gt (JS.div a b) (JS.Num (1 # 2)) = true ↔ (b < 2 * a)%nat.
Proof.
  unfold JS.div. destruct b as [|b].
  - destruct a; simpl; split; (discriminate || lia || auto).
  - unfold JS.gt, JS.Qlt_bool. rewrite negb_true_iff, <- not_true_iff_false.
    rewrite Qle_bool_iff. unfold Qle. cbn [Qnum Qden].
    rewrite Zpos_of_nat_S.
    split; intros H.
    + apply Z.nle_gt in H. lia.
    + apply Z.nle_gt. lia.
Qed.

(** ** Categorizer *)

Module CategorizationProofs.
Import CategorizationService.

Lemma hasSpamPattern_true (text : string) :
  hasSpamPattern text = true ↔
  ∃ p, p ∈ spamPatterns ∧ JS.includes text p = true.
Proof. apply some_true. Qed.

Lemma suspiciousFrom_true (email : Email) :
  suspiciousFrom email = true ↔
  JS.includes (from email) "noreply" = true
  ∨ JS.includes (from email) "no-reply" = true
  ∨ JS.includes (from email) "@" = false.
Proof.
  unfold suspiciousFrom.
  rewrite !orb_true_iff, negb_true_iff. tauto.
Qed.

Lemma excessiveCaps_true (email : Email) :
  excessiveCaps email = true ↔
  (1 # 2 < Z.of_nat (JS.countUpper (subject email))
           # Pos.of_nat (String.length (subject email)))%Q
  ∧ (10 < String.length (subject email))%nat.
Proof.
  unfold excessiveCaps, capsPercentage.
  rewrite andb_true_iff, gt_div_half, Nat.ltb_lt.
  split; intros [H1 H2]; split; auto.
  - destruct (String.length (subject email)) as [|n]; [lia|].
    unfold Qlt. cbn [Qnum Qden]. rewrite Zpos_of_nat_S. lia.
  - destruct (String.length (subject email)) as [|n]; [lia|].
    unfold Qlt in H1. cbn [Qnum Qden] in H1. rewrite Zpos_of_nat_S in H1. lia.
Qed.

Lemma excessiveCaps_empty_subject (email : Email) :
  subject email = EmptyString → excessiveCaps email = false.
Proof. intros H. unfold excessiveCaps, capsPercentage. by rewrite H. Qed.

(** The text of a message whose subject is a literal: the lower-cased
    subject, a blank, the lower-cased body. *)
Lemma textOf_split (email : Email) :
  textOf email
  = (JS.toLowerCase (subject email) +:+ " ") +:+ JS.toLowerCase (body email).
Proof.
  unfold textOf, JS.template2.
  rewrite !toLowerCase_app.
  change (JS.toLowerCase " ") with " ".
  by rewrite append_assoc.
Qed.

Lemma anyOccurs_some (phrases : list string) (text : string) :
  JS.some (fun pattern => JS.includes text pattern) phrases = true
  ↔ Spec.anyOccurs phrases text.
Proof.
  rewrite some_true. unfold Spec.anyOccurs, Spec.occursIn.
  split; intros (p & Hp & H); exists p; (split; [exact Hp|]);
    by apply includes_iff.
Qed.

Lemma isSpam_spec (email : Email) :
  isSpam (textOf email) email = true
  ↔ Spec.anyOccurs spamPatterns (Spec.text email) ∨ Spec.spamHeuristic email.
Proof.
  unfold isSpam, Spec.spamHeuristic, Spec.occursIn.
  rewrite orb_true_iff, andb_true_iff, excessiveCaps_true, suspiciousFrom_true.
  fold (Spec.occursIn "noreply" (from email))
       (Spec.occursIn "no-reply" (from email))
       (Spec.occursIn "@" (from email)).
  unfold hasSpamPattern. rewrite anyOccurs_some.
  change (textOf email) with (Spec.text email).
  assert (Hat : JS.includes (from email) "@" = false
                ↔ ¬ Spec.occursIn "@" (from email)).
  { rewrite <- not_true_iff_false. unfold Spec.occursIn.
    by rewrite includes_iff. }
  unfold Spec.occursIn in *. rewrite !includes_iff, Hat. tauto.
Qed.

Lemma firstMatch_unique (rules : list (Prop * EmailCategory))
    (default c1 c2 : EmailCategory) :
  Spec.firstMatch rules default c1 → Spec.firstMatch rules default c2 → c1 = c2.
Proof.
  intros H1. revert c2.
  induction H1 as [d|P c rest d HP|P c rest d r HP H1 IH]; intros c2 H2;
    inversion H2; subst; try done. by apply IH.
Qed.

(** C1. [categorizeEmail] evaluates the five rules in the order OutOfOffice,
    Spam, MeetingBooked, Interested, NotInterested on the lower-cased text
    made of the subject, a blank and the body.  Each rule holds exactly when
    a phrase of its list occurs in that text (the Spam rule also when its
    compound heuristic holds); the result is the category of the first rule
    that holds and Uncategorized when none does, and it is the only category
    of which that is true.  In particular a message whose text contains an
    OutOfOffice phrase and an Interested phrase is OutOfOffice. *)
Theorem categorizeEmail_first_match (email : Email) :
  Spec.firstMatch (Spec.orderedRules email) UNCATEGORIZED (categorizeEmail email)
  ∧ (∀ c, Spec.firstMatch (Spec.orderedRules email) UNCATEGORIZED c →
          c = categorizeEmail email)
  ∧ (categorizeEmail email = UNCATEGORIZED ↔
     Forall (λ rule, ¬ fst rule) (Spec.orderedRules email))
  ∧ (Spec.anyOccurs outOfOfficePatterns (Spec.text email) →
     Spec.anyOccurs interestedPatterns (Spec.text email) →
     categorizeEmail email = OUT_OF_OFFICE).
Proof.
  assert (H1 := anyOccurs_some outOfOfficePatterns (textOf email)).
  assert (H2 := isSpam_spec email).
  assert (H3 := anyOccurs_some meetingBookedPatterns (textOf email)).
  assert (H4 := anyOccurs_some interestedPatterns (textOf email)).
  assert (H5 := anyOccurs_some notInterestedPatterns (textOf email)).
  change (textOf email) with (Spec.text email) in H1, H3, H4, H5.
  assert (Hfirst : Spec.firstMatch (Spec.orderedRules email) UNCATEGORIZED
                     (categorizeEmail email)
                   ∧ (categorizeEmail email = UNCATEGORIZED ↔
                      Forall (λ rule, ¬ fst rule) (Spec.orderedRules email))).
  { unfold categorizeEmail, Spec.orderedRules, isOutOfOffice, isMeetingBooked,
      isInterested, isNotInterested.
    change (textOf email) with (Spec.text email) in *.
    rewrite !Forall_cons, Forall_nil. cbn [fst].
    destruct (JS.some _ outOfOfficePatterns);
      [split; [apply Spec.firstMatch_here; by apply H1
              | split; [done | intros (Hno & _); destruct Hno; by apply H1]]|].
    assert (N1 : ¬ Spec.anyOccurs outOfOfficePatterns (Spec.text email))
      by (intros H; by apply H1 in H).
    destruct (isSpam _ email);
      [split; [apply Spec.firstMatch_later, Spec.firstMatch_here;
               [done | by apply H2]
              | split; [done | intros (_ & Hno & _); destruct Hno; by apply H2]]|].
    assert (N2 : ¬ (Spec.anyOccurs spamPatterns (Spec.text email)
                    ∨ Spec.spamHeuristic email))
      by (intros H; by apply H2 in H).
    destruct (JS.some _ meetingBookedPatterns);
      [split; [do 2 (apply Spec.firstMatch_later; [done|]);
               apply Spec.firstMatch_here; by apply H3
              | split; [done | intros (_ & _ & Hno & _); destruct Hno; by apply H3]]|].
    assert (N3 : ¬ Spec.anyOccurs meetingBookedPatterns (Spec.text email))
      by (intros H; by apply H3 in H).
    destruct (JS.some _ interestedPatterns);
      [split; [do 3 (apply Spec.firstMatch_later; [done|]);
               apply Spec.firstMatch_here; by apply H4
              | split; [done | intros (_ & _ & _ & Hno & _); destruct Hno; by apply H4]]|].
    assert (N4 : ¬ Spec.anyOccurs interestedPatterns (Spec.text email))
      by (intros H; by apply H4 in H).
    destruct (JS.some _ notInterestedPatterns);
      [split; [do 4 (apply Spec.firstMatch_later; [done|]);
               apply Spec.firstMatch_here; by apply H5
              | split; [done | intros (_ & _ & _ & _ & Hno & _); destruct Hno; by apply H5]]|].
    assert (N5 : ¬ Spec.anyOccurs notInterestedPatterns (Spec.text email))
      by (intros H; by apply H5 in H).
    split; [|by split].
    do 5 (apply Spec.firstMatch_later; [done|]). constructor. }
  destruct Hfirst as [Hfirst Hnone].
  split; [exact Hfirst|].
  split; [intros c Hc; by apply (firstMatch_unique _ _ _ _ Hc Hfirst)|].
  split; [exact Hnone|].
  intros Hooo _. unfold categorizeEmail, isOutOfOffice.
  change (textOf email) with (Spec.text email).
  by rewrite (proj2 H1 Hooo).
Qed.

Lemma categorizeEmail_first_match_witness :
  categorizeEmail oooAndInterested = OUT_OF_OFFICE.
Proof.
  apply (categorizeEmail_first_match oooAndInterested).
  - exists "out of office". split; [apply list_elem_of_In; simpl; tauto|].
    exists "re: interested in your profile i am ", " until monday.".
    vm_compute. reflexivity.
  - exists "interested". split; [apply list_elem_of_In; simpl; tauto|].
    exists "re: ", " in your profile i am out of office until monday.".
    vm_compute. reflexivity.
Defined.

(** C2, as the specification states it, fails: the message is not
    MeetingBooked. *)
Lemma interviewScheduled_not_MeetingBooked :
  categorizeEmail
    (interviewScheduled "account1-1" "account1" "INBOX" "hr@example.com"
       ["me@example.com"] 0 1 None None)
  ≠ MEETING_BOOKED.
Proof. vm_compute. discriminate. Qed.

(** C2, amended.  The message with subject "Interview scheduled - Backend
    Engineer" and body "Let's discuss next steps, are you available for a
    call?" is Interested, whatever its other fields: no MeetingBooked phrase
    occurs in its text (the word "scheduled" alone is none of them), and the
    Interested phrase "interview" does. *)
Theorem interviewScheduled_Interested
    (id accountId folder from : string) (to : list string) (date uid : Z)
    (category : option EmailCategory) (html : option string) :
  let email := interviewScheduled id accountId folder from to date uid category html in
  isMeetingBooked (textOf email) = false
  ∧ JS.includes (textOf email) "interview" = true
  ∧ categorizeEmail email = INTERESTED.
Proof.
  intros email.
  assert (Htext : textOf email
    = "interview scheduled - backend engineer let's discuss next steps, are you available for a call?")
    by (vm_compute; reflexivity).
  assert (Hcaps : excessiveCaps email = false) by (vm_compute; reflexivity).
  unfold categorizeEmail, isSpam. rewrite Hcaps, Htext.
  repeat split; vm_compute; reflexivity.
Qed.

(** C5. The Spam rule holds exactly when a spam phrase occurs in the text, or
    the share of upper-case letters in the subject exceeds one half, the
    subject is longer than 10 and the sender contains "noreply" or
    "no-reply" or lacks an "@".  A message with subject "WINNING OFFER!!"
    from "noreply@bulk.example" whose body has no OutOfOffice phrase is Spam,
    and no spam phrase occurs in its text unless one occurs in the body. *)
Theorem isSpam_rule :
  (∀ (text : string) (email : Email),
     isSpam text email = true ↔
     (∃ p, p ∈ spamPatterns ∧ JS.includes text p = true)
     ∨ ((1 # 2 < Z.of_nat (JS.countUpper (subject email))
                 # Pos.of_nat (String.length (subject email)))%Q
        ∧ (10 < String.length (subject email))%nat
        ∧ (JS.includes (from email) "noreply" = true
           ∨ JS.includes (from email) "no-reply" = true
           ∨ JS.includes (from email) "@" = false)))
  ∧ (∀ (id accountId folder : string) (to : list string) (body : string)
       (date uid : Z) (category : option EmailCategory) (html : option string),
       let email := mkEmail id accountId folder "noreply@bulk.example" to
                            "WINNING OFFER!!" body date uid category html in
       isOutOfOffice (JS.toLowerCase body) = false →
       categorizeEmail email = SPAM
       ∧ (hasSpamPattern (JS.toLowerCase body) = false →
          hasSpamPattern (textOf email) = false)).
Proof.
  split.
  - intros text email. unfold isSpam.
    rewrite orb_true_iff, andb_true_iff, hasSpamPattern_true,
      excessiveCaps_true, suspiciousFrom_true. tauto.
  - intros id accountId folder to body date uid category html email Hooo.
    assert (Htext : textOf email = "winning offer!! " +:+ JS.toLowerCase body)
      by (rewrite textOf_split; reflexivity).
    assert (Hcaps : excessiveCaps email = true) by (vm_compute; reflexivity).
    assert (Hfrom : suspiciousFrom email = true) by (vm_compute; reflexivity).
    split.
    + unfold categorizeEmail, isSpam. rewrite Hcaps, Hfrom, Htext.
      unfold isOutOfOffice.
      rewrite some_includes_prefix by (vm_compute; reflexivity).
      fold (isOutOfOffice (JS.toLowerCase body)). rewrite Hooo.
      by rewrite orb_true_r.
    + intros Hbody. rewrite Htext. unfold hasSpamPattern.
      rewrite some_includes_prefix by (vm_compute; reflexivity).
      exact Hbody.
Qed.


Lemma isSpam_rule_witness :
  categorizeEmail winningOffer = SPAM
  ∧ hasSpamPattern (textOf winningOffer) = false.
Proof.
  pose proof (proj2 isSpam_rule "account1-2" "account1" "INBOX"
                ["me@example.com"] "Open today." 0%Z 2%Z None None) as H.
  cbv zeta in H.
  destruct H as [H1 H2]; [vm_compute; reflexivity|].
  split; [exact H1 | apply H2; vm_compute; reflexivity].
Defined.

(** C10. On a message with an empty subject the capitalisation ratio is
    [0 / 0], not a number, and no comparison with it holds: the compound
    heuristic does not fire, the Spam rule is the phrase test alone, and
    [categorizeEmail] returns a category, Spam exactly when no OutOfOffice
    phrase and some spam phrase occurs in the text. *)
Theorem empty_subject_spam (email : Email) :
  subject email = EmptyString →
  capsPercentage email = JS.NaN
  ∧ excessiveCaps email = false
  ∧ (∀ text, isSpam text email = hasSpamPattern text)
  ∧ (∃ c, categorizeEmail email = c)
  ∧ (categorizeEmail email = SPAM ↔
     isOutOfOffice (textOf email) = false
     ∧ ∃ p, p ∈ spamPatterns ∧ JS.includes (textOf email) p = true).
Proof.
  intros Hs.
  assert (Hcaps : excessiveCaps email = false)
    by (by apply excessiveCaps_empty_subject).
  assert (Hspam : ∀ text, isSpam text email = hasSpamPattern text).
  { intros text. unfold isSpam. rewrite Hcaps. by rewrite orb_false_r. }
  split; [unfold capsPercentage; by rewrite Hs|].
  split; [done|]. split; [done|]. split; [eauto|].
  rewrite <- hasSpamPattern_true.
  unfold categorizeEmail. rewrite Hspam.
  destruct (isOutOfOffice (textOf email)); [split; [discriminate | intros [? _]; discriminate]|].
  destruct (hasSpamPattern (textOf email)); [tauto|].
  split; [|intros [_ ?]; discriminate].
  destruct (isMeetingBooked _); [discriminate|].
  destruct (isInterested _); [discriminate|].
  destruct (isNotInterested _); discriminate.
Qed.


Lemma empty_subject_spam_witness :
  excessiveCaps noSubjectLottery = false
  ∧ categorizeEmail noSubjectLottery = SPAM.
Proof.
  destruct (empty_subject_spam noSubjectLottery) as (_ & H1 & _ & _ & H2);
    [reflexivity|].
  split; [exact H1|].
  apply H2. split; [vm_compute; reflexivity|].
  exists "lottery". split; [|vm_compute; reflexivity].
  apply list_elem_of_In. simpl. tauto.
Defined.

End CategorizationProofs.

(** ** Sorting *)

(** [JS.sort] with a comparator that is a total preorder on the elements at
    hand: a permutation, in order, and stable. *)
Section SortFacts.
Context {A : Type} (compareFn : A → A → comparison) (ok : A → Prop).

Hypothesis compareFn_trans : ∀ x y z,
  ok x → ok y → ok z → notAfter compareFn x y → notAfter compareFn y z → notAfter compareFn x z.
Hypothesis compareFn_total : ∀ x y,
  ok x → ok y → compareFn x y = Gt → notAfter compareFn y x.

Lemma insertSorted_perm (x : A) (l : list A) :
  JS.insertSorted compareFn x l ≡ₚ x :: l.
Proof.
  induction l as [|y l IH]; simpl; [done|].
  destruct (compareFn x y); try done.
  rewrite IH. apply Permutation_swap.
Qed.

Lemma sort_perm (l : list A) : JS.sort compareFn l ≡ₚ l.
Proof.
  induction l as [|x l IH]; simpl; [done|].
  by rewrite insertSorted_perm, IH.
Qed.

Lemma sort_length (l : list A) : length (JS.sort compareFn l) = length l.
Proof. by rewrite sort_perm. Qed.

Lemma insertSorted_sorted (x : A) (l : list A) :
  ok x → Forall ok l →
  StronglySorted (notAfter compareFn) l →
  StronglySorted (notAfter compareFn) (JS.insertSorted compareFn x l).
Proof.
  intros Hx Hok Hs. induction Hs as [|y l Hs IH Hy]; simpl.
  - repeat constructor.
  - apply Forall_cons in Hok as [Hoky Hok].
    assert (Hhead : compareFn x y ≠ Gt →
                    StronglySorted (notAfter compareFn) (x :: y :: l)).
    { intros Hc. constructor; [by constructor|].
      constructor; [exact Hc|].
      rewrite Forall_forall in Hy, Hok |- *. intros z Hz.
      apply (compareFn_trans x y z); auto. }
    destruct (compareFn x y) eqn:Hc; [by apply Hhead | by apply Hhead |].
    constructor; [by apply IH|].
    rewrite insertSorted_perm. constructor; [|done].
    by apply compareFn_total.
Qed.

Lemma sort_sorted (l : list A) :
  Forall ok l → StronglySorted (notAfter compareFn) (JS.sort compareFn l).
Proof.
  induction l as [|x l IH]; intros Hok; simpl; [constructor|].
  apply Forall_cons in Hok as [Hx Hok].
  apply insertSorted_sorted; auto.
  by rewrite sort_perm.
Qed.

(** Stability: a class of elements the comparator never reorders keeps its
    order of arrival. *)
Context (P : A → Prop) `{!∀ x, Decision (P x)}.
Hypothesis P_class : ∀ x y, P x → P y → notAfter compareFn x y.

Lemma insertSorted_filter (x : A) (l : list A) :
  filter P (JS.insertSorted compareFn x l) = filter P (x :: l).
Proof.
  induction l as [|y l IH]; simpl; [done|].
  destruct (compareFn x y) eqn:Hc; try done.
  rewrite (filter_cons _ y), IH, !filter_cons.
  destruct (decide (P x)) as [Hx|Hx]; [|done].
  destruct (decide (P y)) as [Hy|Hy]; [|done].
  by destruct (P_class x y Hx Hy).
Qed.

Lemma sort_filter (l : list A) : filter P (JS.sort compareFn l) = filter P l.
Proof.
  induction l as [|x l IH]; simpl; [done|].
  by rewrite insertSorted_filter, !filter_cons, IH.
Qed.

Lemma slice0_sort_filter (n : nat) (l : list A) :
  filter P (JS.slice0 n (JS.sort compareFn l)) `prefix_of` filter P l.
Proof.
  rewrite <- (sort_filter l). unfold JS.slice0.
  generalize (JS.sort compareFn l). intros k.
  exists (filter P (drop n k)).
  by rewrite <- filter_app, take_drop.
Qed.

End SortFacts.

(** ** Reply retrieval engine *)

Module RAGProofs.
Import RAGService.

Lemma split_length (s : string) : (1 <= length (JS.split s))%nat.
Proof.
  induction s as [|c s IH]; simpl; [lia|].
  destruct (JS.isSpace c).
  - destruct s as [|c' s']; [simpl; lia|].
    destruct (JS.isSpace c'); [exact IH | simpl; lia].
  - destruct (JS.split s); simpl; lia.
Qed.

Lemma arrayIncludes_true (arr : list string) (x : string) :
  JS.arrayIncludes arr x = true ↔ x ∈ arr.
Proof.
  unfold JS.arrayIncludes. rewrite existsb_exists. split.
  - intros (y & Hy & Heq). apply String.eqb_eq in Heq as ->.
    by apply list_elem_of_In.
  - intros Hx. exists x. split; [by apply list_elem_of_In | apply String.eqb_refl].
Qed.


Lemma calculateSimilarity_common (text1 text2 : string) :
  calculateSimilarity text1 text2
  = JS.div (length (common text1 text2))
           (Nat.max (length (JS.split (JS.toLowerCase text1)))
                    (length (JS.split (JS.toLowerCase text2)))).
Proof.
  unfold calculateSimilarity, common. do 2 f_equal.
  apply list_filter_iff. intros w.
  by rewrite Is_true_true, arrayIncludes_true.
Qed.

Lemma div_Num (n m : nat) :
  (1 <= m)%nat → (n <= m)%nat →
  ∃ q, JS.div n m = JS.Num q ∧ (0 <= q)%Q ∧ (q <= 1)%Q.
Proof.
  intros Hm Hn. destruct m as [|m]; [lia|].
  eexists. split; [reflexivity|]. unfold Qle. cbn [Qnum Qden].
  rewrite Zpos_of_nat_S. lia.
Qed.

Lemma calculateSimilarity_Num (text1 text2 : string) :
  ∃ q, calculateSimilarity text1 text2 = JS.Num q ∧ (0 <= q)%Q ∧ (q <= 1)%Q.
Proof.
  rewrite calculateSimilarity_common. apply div_Num.
  - pose proof (split_length (JS.toLowerCase text1)). lia.
  - unfold common.
    pose proof (length_filter (λ word, word ∈ JS.split (JS.toLowerCase text2))
                  (JS.split (JS.toLowerCase text1))).
    lia.
Qed.





Lemma truthy_nonempty (s : string) : JS.truthy s = true → s ≠ EmptyString.
Proof. by destruct s. Qed.

Lemma templates_nonempty : Forall (λ t, t ≠ EmptyString) templates.
Proof. repeat constructor; by vm_compute. Qed.

Lemma generateWithRules_templates (email : Email) (context : list string) :
  generateWithRules email context ∈ templates.
Proof.
  unfold generateWithRules, templates.
  repeat match goal with
         | |- context [if ?c then _ else _] => destruct c
         end;
    rewrite !elem_of_cons; tauto.
Qed.

Lemma generateWithRules_nonempty (email : Email) (context : list string) :
  generateWithRules email context ≠ EmptyString.
Proof.
  pose proof templates_nonempty as H. rewrite Forall_forall in H.
  apply H, generateWithRules_templates.
Qed.

(** Which template the rule-based path selects, by the keys that occur in
    the lower-cased subject and body. *)
Lemma generateWithRules_keys (email : Email) (context : list string) :
  let has key :=
    JS.includes (JS.toLowerCase (JS.template2 (subject email) (body email))) key = true in
  let scheduling :=
    has "interview" ∨ has "schedule" ∨ has "available" ∨ has "when are you free" in
  let shortlisted :=
    has "shortlisted" ∨ has "selected" ∨ has "congratulations" in
  let interest :=
    has "interested" ∨ has "opportunity" ∨ has "position" in
  let technical :=
    has "technical" ∨ has "skills" ∨ has "experience" in
  (scheduling → generateWithRules email context = template_interview)
  ∧ (¬ scheduling → shortlisted →
     generateWithRules email context = template_shortlisted)
  ∧ (¬ scheduling → ¬ shortlisted → interest →
     generateWithRules email context = template_interest)
  ∧ (¬ scheduling → ¬ shortlisted → ¬ interest → technical →
     generateWithRules email context = template_technical)
  ∧ (¬ scheduling → ¬ shortlisted → ¬ interest → ¬ technical →
     generateWithRules email context = template_default).
Proof.
  intros has scheduling shortlisted interest technical.
  unfold generateWithRules.
  set (text := JS.toLowerCase (JS.template2 (subject email) (body email))).
  assert (H1 : JS.includes text "interview" || JS.includes text "schedule"
               || JS.includes text "available"
               || JS.includes text "when are you free" = true ↔ scheduling).
  { rewrite !orb_true_iff. unfold scheduling, has. fold text. tauto. }
  assert (H2 : JS.includes text "shortlisted" || JS.includes text "selected"
               || JS.includes text "congratulations" = true ↔ shortlisted).
  { rewrite !orb_true_iff. unfold shortlisted, has. fold text. tauto. }
  assert (H3 : JS.includes text "interested" || JS.includes text "opportunity"
               || JS.includes text "position" = true ↔ interest).
  { rewrite !orb_true_iff. unfold interest, has. fold text. tauto. }
  assert (H4 : JS.includes text "technical" || JS.includes text "skills"
               || JS.includes text "experience" = true ↔ technical).
  { rewrite !orb_true_iff. unfold technical, has. fold text. tauto. }
  destruct (_ || _ || _ || JS.includes text "when are you free");
    [| destruct (_ || _ || JS.includes text "congratulations");
       [| destruct (_ || _ || JS.includes text "position");
          [| destruct (_ || _ || JS.includes text "experience")]]];
    intuition (done || discriminate).
Qed.

(** C7. [generateReply] resolves, never rejects, and its reply is not
    empty.  The reply is the collaborator's content when there is a
    collaborator, its call succeeds and the first choice has a non-empty
    content; in every other case (no collaborator, a failed call, no choice,
    a [null] or empty content) it is the rule-based reply, one of five fixed
    non-empty templates, selected by the keys that occur in the lower-cased
    subject and body: "interview", "schedule", "available" (or "when are you
    free"), else "shortlisted", "selected", "congratulations", else
    "interested", "opportunity", "position", else "technical", "skills",
    "experience", else the generic template. *)
Theorem generateReply_total (email : Email) (self : t) :
  let context :=
    fst (retrieveRelevantContext (JS.template2 (subject email) (body email)) self) in
  let has key :=
    JS.includes (JS.toLowerCase (JS.template2 (subject email) (body email))) key = true in
  let scheduling :=
    has "interview" ∨ has "schedule" ∨ has "available" ∨ has "when are you free" in
  let shortlisted :=
    has "shortlisted" ∨ has "selected" ∨ has "congratulations" in
  let interest :=
    has "interested" ∨ has "opportunity" ∨ has "position" in
  let technical :=
    has "technical" ∨ has "skills" ∨ has "experience" in
  ∃ reply : string,
    generateReply email self = (Async.Ok reply, self)
    ∧ reply ≠ EmptyString
    ∧ reply = default (generateWithRules email context)
                      (Spec.collaboratorReply self email context)
    ∧ (Spec.collaboratorReply self email context = None →
       reply = generateWithRules email context ∧ reply ∈ templates)
    ∧ Forall (λ t, t ≠ EmptyString) templates
    ∧ (scheduling → generateWithRules email context = template_interview)
    ∧ (¬ scheduling → shortlisted →
       generateWithRules email context = template_shortlisted)
    ∧ (¬ scheduling → ¬ shortlisted → interest →
       generateWithRules email context = template_interest)
    ∧ (¬ scheduling → ¬ shortlisted → ¬ interest → technical →
       generateWithRules email context = template_technical)
    ∧ (¬ scheduling → ¬ shortlisted → ¬ interest → ¬ technical →
       generateWithRules email context = template_default).
Proof.
  intros context has scheduling shortlisted interest technical.
  assert (Hrun : ∃ reply,
    generateReply email self = (Async.Ok reply, self)
    ∧ reply ≠ EmptyString
    ∧ reply = default (generateWithRules email context)
                      (Spec.collaboratorReply self email context)).
  { unfold generateReply, Spec.collaboratorReply.
    unfold retrieveRelevantContext in *. cbn [fst] in *. fold context.
    destruct (openai self) as [client|].
    - unfold generateWithOpenAI, Async.tryCatch, Async.bind, create, firstContent.
      destruct (client (chatRequest email context)) as [completion|err].
      + destruct (OpenAI.choices completion) as [|choice rest].
        * eexists. split; [reflexivity|].
          split; [apply generateWithRules_nonempty | reflexivity].
        * unfold Async.ret.
          destruct (OpenAI.message_content choice) as [content|].
          -- destruct (JS.truthy content) eqn:Ht.
             ++ eexists. split; [reflexivity|].
                split; [by apply truthy_nonempty | reflexivity].
             ++ eexists. split; [reflexivity|].
                split; [apply generateWithRules_nonempty | reflexivity].
          -- eexists. split; [reflexivity|].
             split; [apply generateWithRules_nonempty | reflexivity].
      + eexists. split; [reflexivity|].
        split; [apply generateWithRules_nonempty | reflexivity].
    - eexists. split; [reflexivity|].
      split; [apply generateWithRules_nonempty | reflexivity]. }
  destruct Hrun as (reply & Hrun & Hne & Hreply).
  exists reply. split; [exact Hrun|]. split; [exact Hne|]. split; [exact Hreply|].
  split.
  { intros Hnone. rewrite Hnone in Hreply. simpl in Hreply. subst reply.
    split; [reflexivity | apply generateWithRules_templates]. }
  split; [exact templates_nonempty|].
  apply generateWithRules_keys.
Qed.



Lemma generateReply_total_witness :
  generateReply followUp failingService
  = (Async.Ok template_interest, failingService).
Proof.
  destruct (generateReply_total followUp failingService)
    as (reply & Hrun & _ & _ & Hrules & _ & _ & _ & Hinterest & _).
  destruct Hrules as [Hreply _]; [reflexivity|].
  rewrite Hrun, Hreply, Hinterest; [reflexivity| | |]; clear.
  - vm_compute. intros [H|[H|[H|H]]]; discriminate H.
  - vm_compute. intros [H|[H|H]]; discriminate H.
  - right. right. vm_compute. reflexivity.
Defined.

(** *** Retrieval *)


Lemma scoreDocs_isNum (self : t) (emailText : string) :
  Forall isNum (scoreDocs self emailText).
Proof.
  unfold scoreDocs. apply Forall_map, Forall_forall. intros doc _.
  destruct (calculateSimilarity_Num emailText (ContextDocument.text doc))
    as (q & Hq & _).
  by exists q.
Qed.

Lemma byScoreDesc_trans (x y z : ContextDocument.t * JS.number) :
  isNum x → isNum y → isNum z →
  notAfter byScoreDesc x y → notAfter byScoreDesc y z →
  notAfter byScoreDesc x z.
Proof.
  unfold notAfter, byScoreDesc. intros [p Hp] [q Hq] [r Hr].
  rewrite Hp, Hq, Hr. cbn [JS.subSign].
  rewrite <- !Qle_alt. intros H1 H2. by apply (Qle_trans _ q).
Qed.

Lemma byScoreDesc_total (x y : ContextDocument.t * JS.number) :
  isNum x → isNum y →
  byScoreDesc x y = Gt → notAfter byScoreDesc y x.
Proof.
  unfold notAfter, byScoreDesc. intros [p Hp] [q Hq].
  rewrite Hp, Hq. cbn [JS.subSign].
  rewrite <- Qgt_alt, <- Qle_alt. apply Qlt_le_weak.
Qed.

Lemma sameScore_class (s : Q) (x y : ContextDocument.t * JS.number) :
  sameScore s x → sameScore s y → notAfter byScoreDesc x y.
Proof.
  unfold sameScore, notAfter, byScoreDesc.
  destruct (snd x) as [| |p]; try done. destruct (snd y) as [| |q]; try done.
  rewrite !Is_true_true, !Qeq_bool_iff. intros Hp Hq. cbn [JS.subSign].
  rewrite <- Qle_alt, Hp, Hq. apply Qle_refl.
Qed.

Lemma new_contextDocs_length (client : option OpenAI.client) (productContext : string) :
  length (contextDocs (new client productContext)) = 5.
Proof. reflexivity. Qed.

Lemma addContextDocument_length (id text : string) (self : t) :
  length (contextDocs (addContextDocument id text self))
  = S (length (contextDocs self)).
Proof. unfold addContextDocument. cbn [contextDocs]. rewrite length_app. simpl. lia. Qed.

(** C9. Retrieval reads the snippets and changes nothing: asked again, it
    returns the same list in the same order.  The list has the texts of the
    first three of the scored snippets in sorted order (three of them as
    soon as the service holds three snippets, and it starts with five): each
    comes with the score of its text, the scores do not increase along the
    list, no snippet left out scores higher than one that is in, and
    snippets with equal scores stand in the order in which they were
    inserted. *)
Theorem retrieveRelevantContext_stable (self : t) (emailText : string) :
  let top := topScored self emailText in
  let result := fst (retrieveRelevantContext emailText self) in
  retrieveRelevantContext emailText self = (result, self)
  ∧ retrieveRelevantContext emailText (snd (retrieveRelevantContext emailText self))
    = (result, self)
  ∧ result = map (λ item, ContextDocument.text (fst item)) top
  ∧ length result = Nat.min 3 (length (contextDocs self))
  ∧ ((3 <= length (contextDocs self))%nat → length result = 3)
  ∧ scoreDocs self emailText
    = map (λ doc, (doc, calculateSimilarity emailText (ContextDocument.text doc)))
          (contextDocs self)
  ∧ Forall (λ item, item ∈ scoreDocs self emailText
                    ∧ ∃ q, snd item = JS.Num q ∧ (0 <= q)%Q ∧ (q <= 1)%Q) top
  ∧ StronglySorted (λ a b, JS.subSign (snd b) (snd a) ≠ Gt) top
  ∧ (∃ rest, top ++ rest ≡ₚ scoreDocs self emailText
             ∧ ∀ x y, x ∈ top → y ∈ rest → JS.subSign (snd y) (snd x) ≠ Gt)
  ∧ (∀ q : Q, filter (λ item, sameScore q item) top
              `prefix_of` filter (λ item, sameScore q item) (scoreDocs self emailText)).
Proof.
  intros top result.
  pose proof (sort_sorted byScoreDesc isNum byScoreDesc_trans byScoreDesc_total
                (scoreDocs self emailText) (scoreDocs_isNum self emailText))
    as Hsorted.
  pose proof (sort_perm byScoreDesc (scoreDocs self emailText)) as Hperm.
  rewrite <- (take_drop 3 (JS.sort byScoreDesc (scoreDocs self emailText)))
    in Hsorted, Hperm.
  fold (JS.slice0 3 (JS.sort byScoreDesc (scoreDocs self emailText)))
    in Hsorted, Hperm.
  fold (topScored self emailText) in Hsorted, Hperm. fold top in Hsorted, Hperm.
  apply StronglySorted_app in Hsorted as (Hcross & Htop & _).
  assert (Hlen : length result = Nat.min 3 (length (contextDocs self))).
  { unfold result, retrieveRelevantContext, topScored, JS.slice0. cbn [fst].
    rewrite length_map, length_take, sort_length.
    unfold scoreDocs. by rewrite length_map. }
  split; [reflexivity|]. split; [reflexivity|]. split; [reflexivity|].
  split; [exact Hlen|].
  split; [intros Hthree; rewrite Hlen; lia|].
  split; [reflexivity|].
  split.
  { apply Forall_forall. intros item Hitem.
    assert (Hin : item ∈ scoreDocs self emailText).
    { rewrite <- Hperm. apply elem_of_app. by left. }
    split; [exact Hin|].
    unfold scoreDocs in Hin. apply list_elem_of_In, in_map_iff in Hin
      as (doc & <- & _).
    apply calculateSimilarity_Num. }
  split; [exact Htop|].
  split.
  { eexists. split; [exact Hperm|]. intros x y Hx Hy. by apply Hcross. }
  intros q. unfold top, topScored.
  apply slice0_sort_filter. apply sameScore_class.
Qed.

Lemma retrieveRelevantContext_stable_witness :
  length (fst (retrieveRelevantContext "Thank you for your interest"
                 (new None "I am applying for a job position."))) = 3.
Proof.
  apply (retrieveRelevantContext_stable
           (new None "I am applying for a job position.")
           "Thank you for your interest").
  rewrite new_contextDocs_length. lia.
Defined.

End RAGProofs.

(** ** Pipeline coordinator *)

Module ServerProofs.
Import EmailSyncServer.


Lemma sendSlackNotification_run (C : Config) (F : Faults) (email : Email) (w : World) :
  NotificationService.sendSlackNotification C F email w
  = (Async.Ok tt,
     mkWorld (documents w)
       (calls w ++ [SendSlackNotification email]
        ++ (if JS.truthy (slack_webhookUrl C)
            then [AxiosPost (slack_webhookUrl C)] else []))).
Proof.
  unfold NotificationService.sendSlackNotification,
    NotificationService.axios_post, record, Async.tryCatch, Async.bind,
    Async.modify, Async.ret, Async.throw.
  cbn [documents calls].
  destruct (JS.truthy (slack_webhookUrl C)); cbn [negb].
  - destruct (postRejects F (slack_webhookUrl C)); cbn [documents calls];
      by rewrite <- app_assoc.
  - reflexivity.
Qed.

Lemma triggerWebhook_run (C : Config) (F : Faults) (email : Email) (w : World) :
  NotificationService.triggerWebhook C F email w
  = (Async.Ok tt,
     mkWorld (documents w)
       (calls w ++ [TriggerWebhook email]
        ++ (if JS.truthy (webhook_url C)
            then [AxiosPost (webhook_url C)] else []))).
Proof.
  unfold NotificationService.triggerWebhook,
    NotificationService.axios_post, record, Async.tryCatch, Async.bind,
    Async.modify, Async.ret, Async.throw.
  cbn [documents calls].
  destruct (JS.truthy (webhook_url C)); cbn [negb].
  - destruct (postRejects F (webhook_url C)); cbn [documents calls];
      by rewrite <- app_assoc.
  - reflexivity.
Qed.

Lemma notifyInterestedEmail_run (C : Config) (F : Faults) (email : Email) (w : World) :
  NotificationService.notifyInterestedEmail C F email w
  = (Async.Ok tt,
     mkWorld (documents w)
       (calls w ++ match category email with
                   | Some INTERESTED => notificationCalls C email
                   | _ => []
                   end)).
Proof.
  unfold NotificationService.notifyInterestedEmail, notificationCalls.
  destruct w as [docs cs].
  destruct (category email) as [[]|]; cbn [EmailCategory_eqb];
    try (unfold Async.ret; cbn [documents calls]; by rewrite app_nil_r).
  unfold Async.bind. rewrite sendSlackNotification_run, triggerWebhook_run.
  cbn [documents calls]. by rewrite <- !app_assoc.
Qed.

Lemma handleNewEmail_run (C : Config) (F : Faults) (email : Email) (w : World) :
  let stored := setCategory email (Some (CategorizationService.categorizeEmail email)) in
  handleNewEmail C F email w
  = (Async.Ok tt,
     if indexRejects F stored
     then mkWorld (documents w) (calls w ++ [ClientIndex (id email) stored])
     else mkWorld (<[id email := stored]> (documents w))
            (calls w ++ ClientIndex (id email) stored
               :: match CategorizationService.categorizeEmail email with
                  | INTERESTED => notificationCalls C stored
                  | _ => []
                  end)).
Proof.
  intros stored. unfold handleNewEmail. fold stored.
  unfold Async.tryCatch at 1. unfold Async.bind at 1.
  unfold ElasticsearchService.indexEmail, ElasticsearchService.client_index,
    record, Async.tryCatch, Async.bind, Async.modify, Async.throw, Async.ret.
  cbn [documents calls].
  change (id stored) with (id email).
  destruct (indexRejects F stored); [reflexivity|].
  cbn [documents calls].
  rewrite notifyInterestedEmail_run. cbn [documents calls].
  change (category stored) with (Some (CategorizationService.categorizeEmail email)).
  by rewrite <- app_assoc.
Qed.

Lemma notificationCalls_filter (C : Config) (email : Email) :
  filter (λ c, isNotification c) (notificationCalls C email)
  = [SendSlackNotification email; TriggerWebhook email]
  ∧ filter (λ c, isPersistence c) (notificationCalls C email) = [].
Proof.
  unfold notificationCalls.
  destruct (JS.truthy (slack_webhookUrl C)), (JS.truthy (webhook_url C));
    split; reflexivity.
Qed.


(** C6, as the specification states it, fails: an Interested message whose
    persistence write is rejected is not notified about. *)
Lemma rejected_write_drops_notification :
  CategorizationService.categorizeEmail interestedLead = INTERESTED
  ∧ ¬ ∃ c, c ∈ calls (snd (handleNewEmail bothSinks indexDown interestedLead emptyWorld))
           ∧ isNotification c = true.
Proof.
  split; [vm_compute; reflexivity|].
  rewrite handleNewEmail_run. cbn [indexDown indexRejects snd calls emptyWorld app].
  intros (c & Hc & Hn). apply list_elem_of_singleton in Hc. by subst c.
Qed.

(** C6, amended.  For every message the coordinator handles, the
    persistence write, keyed by the message's id and carrying the assigned
    category, is the first thing asked of the outside world and the only
    write.  When the write succeeds, the notification collaborator is invoked
    if and only if the category is Interested, after the write; when the
    write is rejected the message is dropped.  The handler never fails, and
    what the index holds afterwards does not depend on whether the
    notifications fail. *)
Theorem handleNewEmail_persist_then_notify
    (C : Config) (F : Faults) (email : Email) (w : World) :
  let assigned := CategorizationService.categorizeEmail email in
  let stored := setCategory email (Some assigned) in
  let w' := snd (handleNewEmail C F email w) in
  fst (handleNewEmail C F email w) = Async.Ok tt
  ∧ (∃ after : list Call,
       calls w' = calls w ++ ClientIndex (id email) stored :: after
       ∧ filter (λ c, isPersistence c) after = []
       ∧ (indexRejects F stored = false →
          documents w' = <[id email := stored]> (documents w)
          ∧ ((∃ c, c ∈ after ∧ isNotification c = true) ↔ assigned = INTERESTED)
          ∧ (assigned = INTERESTED →
             filter (λ c, isNotification c) after
             = [SendSlackNotification stored; TriggerWebhook stored]))
       ∧ (indexRejects F stored = true →
          after = [] ∧ documents w' = documents w))
  ∧ (∀ postRejects' : string → bool,
       documents (snd (handleNewEmail C
                         {| indexRejects := indexRejects F;
                            updateRejects := updateRejects F;
                            postRejects := postRejects' |} email w))
       = documents w').
Proof.
  intros assigned stored w'. subst w'.
  split; [by rewrite handleNewEmail_run|].
  split.
  - rewrite handleNewEmail_run. fold assigned stored. cbn [snd].
    destruct (indexRejects F stored) eqn:Hrej.
    + exists []. cbn [calls documents]. repeat split; try done.
    + cbn [calls documents]. eexists. split; [reflexivity|].
      destruct (notificationCalls_filter C stored) as [Hn Hp].
      assert (Hslack : SendSlackNotification stored ∈ notificationCalls C stored).
      { unfold notificationCalls. set_solver. }
      destruct assigned; (split; [first [exact Hp | reflexivity]|]);
        (split; [|done]); intros _;
        (split; [reflexivity|]);
        (split; [|first [intros _; exact Hn | discriminate]]);
        (split; [intros (c & Hc & _); first [reflexivity | by apply elem_of_nil in Hc]|]);
        intros Heq; first [discriminate | eauto].
  - intros postRejects'. by rewrite !handleNewEmail_run.
Qed.

Lemma handleNewEmail_persist_then_notify_witness :
  documents (snd (handleNewEmail bothSinks sinksDown interestedLead emptyWorld))
    !! "account1-5"
  = Some (setCategory interestedLead (Some INTERESTED))
  ∧ filter (λ c, isNotification c)
      (calls (snd (handleNewEmail bothSinks sinksDown interestedLead emptyWorld)))
    = [SendSlackNotification (setCategory interestedLead (Some INTERESTED));
       TriggerWebhook (setCategory interestedLead (Some INTERESTED))].
Proof.
  destruct (handleNewEmail_persist_then_notify bothSinks sinksDown
              interestedLead emptyWorld)
    as (_ & (after & Hcalls & _ & Hok & _) & _).
  destruct Hok as (Hdocs & _ & Hnotified); [reflexivity|].
  split.
  - rewrite Hdocs. apply lookup_insert_eq.
  - rewrite Hcalls. cbn [emptyWorld calls app]. rewrite filter_cons.
    cbn [isNotification]. rewrite decide_False by (by intros []).
    apply Hnotified. vm_compute. reflexivity.
Defined.

End ServerProofs.

(** ** HTTP controller *)

Module ControllerProofs.
Import EmailController.

Lemma isCategoryValue_true (v : JsValue) :
  isCategoryValue v = true ↔ ∃ c : EmailCategory, v = JString (categoryValue c).
Proof.
  split.
  - destruct v as [| | | |s| |]; try discriminate. cbn [isCategoryValue].
    unfold JS.arrayIncludes, EmailCategory_values. rewrite existsb_exists.
    intros (x & Hx & Heq). apply String.eqb_eq in Heq as <-.
    apply in_map_iff in Hx as (c & <- & _). by exists c.
  - intros [c ->]. by destruct c.
Qed.

(** C8. A request whose category is none of the six values Interested,
    Meeting Booked, Not Interested, Spam, Out of Office, Uncategorized is
    answered with status 400 and the error "Invalid category"; the update
    operation of the persistence collaborator is not invoked and the stored
    messages are unchanged. *)
Theorem updateCategory_rejects_invalid (F : Faults) (req : Request) (w : World) :
  EmailCategory_values
  = ["Interested"; "Meeting Booked"; "Not Interested"; "Spam";
     "Out of Office"; "Uncategorized"]
  ∧ ((∀ c : EmailCategory, body_category req ≠ JString (categoryValue c)) →
     updateCategory F req w
     = (Async.Ok {| status := 400; success := false;
                    error := Some "Invalid category"; message := None |}, w)
     ∧ documents (snd (updateCategory F req w)) = documents w
     ∧ calls (snd (updateCategory F req w)) = calls w).
Proof.
  split; [reflexivity|]. intros Hinvalid.
  assert (Hv : isCategoryValue (body_category req) = false).
  { apply not_true_iff_false. rewrite isCategoryValue_true.
    intros [c Hc]. by apply (Hinvalid c). }
  assert (Hrun : updateCategory F req w
    = (Async.Ok {| status := 400; success := false;
                   error := Some "Invalid category"; message := None |}, w)).
  { unfold updateCategory, Async.tryCatch. by rewrite Hv. }
  rewrite Hrun. done.
Qed.


Lemma updateCategory_rejects_invalid_witness :
  updateCategory noFaults
    {| params_id := "account1-5"; body_category := JString "MeetingBooked" |}
    oneMessage
  = (Async.Ok {| status := 400; success := false;
                 error := Some "Invalid category"; message := None |},
     oneMessage).
Proof.
  apply (proj2 (updateCategory_rejects_invalid noFaults
                  {| params_id := "account1-5";
                     body_category := JString "MeetingBooked" |} oneMessage)).
  intros c. destruct c; discriminate.
Defined.

End ControllerProofs.

(** ** Mailbox connector *)

Module IMAPProofs.
Import IMAPService.

(** While the library has not announced [end], the [end] listener is
    registered, and a connector that believes it is connected has an open
    connection. *)
Lemma step_keeps_endListener (l : Label) (self self' : t) :
  l ≠ EmitEnd → step l self = Some self' →
  endListener self = true ∧ (connected self = true → session self ≠ Closed) →
  endListener self' = true ∧ (connected self' = true → session self' ≠ Closed).
Proof.
  intros Hl Hstep [He Hc]. destruct self as [c s r e n m k ts acts].
  cbn in He, Hc. subst n.
  assert (Hconnect : ∀ ts',
    let self' := connect (mk c s r e true m k ts' acts) in
    endListener self' = true ∧ (connected self' = true → session self' ≠ Closed)).
  { intros ts'. unfold connect. destruct c, s; cbn; split; auto; discriminate. }
  assert (HidleCheck : ∀ m' k' ts' acts',
    let self' := idleCheck (mk c s r e true m' k' ts' acts') in
    endListener self' = true ∧ (connected self' = true → session self' ≠ Closed)).
  { intros m' k' ts' acts'. unfold idleCheck.
    destruct c, s; cbn; split; auto; discriminate. }
  destruct l as [| | | | |err|i]; try done; cbn in Hstep.
  - injection Hstep as <-. apply Hconnect.
  - injection Hstep as <-. unfold disconnect.
    destruct c, s; cbn; split; auto; discriminate.
  - destruct s; try done. destruct r; injection Hstep as <-; cbn; by auto.
  - destruct s; try done; destruct e; try done; injection Hstep as <-; cbn;
      split; auto; discriminate.
  - destruct k as [|k]; [done|]. injection Hstep as <-.
    unfold onInboxOpened. destruct err; [cbn; by auto|].
    apply HidleCheck.
  - destruct (ts !! i) as [tm|]; [|done]. injection Hstep as <-.
    destruct (callback tm); cbn [runCallback].
    + apply Hconnect.
    + apply HidleCheck.
Qed.

Lemma run_keeps_endListener (ls : list Label) (self self' : t) :
  Forall (λ l, l ≠ EmitEnd) ls → run ls self = Some self' →
  endListener self = true ∧ (connected self = true → session self ≠ Closed) →
  endListener self' = true ∧ (connected self' = true → session self' ≠ Closed).
Proof.
  revert self. induction ls as [|l ls IH]; intros self Hls Hrun Hinv.
  - injection Hrun as <-. exact Hinv.
  - apply Forall_cons in Hls as [Hl Hls]. cbn in Hrun.
    destruct (step l self) as [mid|] eqn:Hstep; [|done].
    apply (IH mid Hls Hrun). by apply (step_keeps_endListener l self).
Qed.


(** C4 fails on the code.  After [disconnect()] on a connected connector
    the library announces [end], and the [end] handler schedules a
    reconnection as it does for a lost connection: a reconnect timer is
    pending, and when it fires the connector connects again. *)
Theorem disconnect_reconnects :
  run stopAfterReady new = Some stoppedConnector
  ∧ reconnectPending stoppedConnector = true
  ∧ step (TimerFires 1) stoppedConnector = Some reconnectingConnector
  ∧ session reconnectingConnector = Opening.
Proof. repeat split. Qed.

(** The same for every connected connector whose [end] listener is still
    registered and whose connection is open: [disconnect()] and the [end]
    that answers it leave a reconnect timer behind. *)
Lemma disconnect_end_schedules (self : t) :
  connected self = true → endListener self = true → session self ≠ Closed →
  ∃ stopped,
    run [CallDisconnect; EmitEnd] self = Some stopped
    ∧ timers stopped = timers self ++ [ {| delay := 5000; callback := RunConnect |} ]
    ∧ connected stopped = false.
Proof.
  intros Hc He Hs. destruct self as [c s r e n m k ts acts].
  cbn in Hc, He, Hs. subst c n.
  destruct s; [done| | |]; eexists; (split; [reflexivity|]); done.
Qed.

(** So it is on the first [disconnect()] of any run of the connector in
    which the connection has not ended before. *)
Lemma first_disconnect_reconnects (ls : list Label) (self : t) :
  Forall (λ l, l ≠ EmitEnd) ls → run ls new = Some self →
  connected self = true →
  ∃ stopped,
    run [CallDisconnect; EmitEnd] self = Some stopped
    ∧ reconnectPending stopped = true.
Proof.
  intros Hls Hrun Hc.
  destruct (run_keeps_endListener ls new self Hls Hrun) as [He Hs];
    [by split|].
  destruct (disconnect_end_schedules self Hc He (Hs Hc))
    as (stopped & Hstop & Htimers & _).
  exists stopped. split; [exact Hstop|].
  unfold reconnectPending. rewrite Htimers, existsb_app. cbn.
  by rewrite orb_true_r.
Qed.

End IMAPProofs.

(* ===================================================================== *)
(** * Further properties of the code *)
(* ===================================================================== *)

Import MoreSamples.

(** ** Categorizer, continued *)

Module CategorizationExtras.
Import CategorizationService.

Lemma isOutOfOffice_decides (email : Email) :
  isOutOfOffice (textOf email) = true → categorizeEmail email = OUT_OF_OFFICE.
Proof. intros H. unfold categorizeEmail. by rewrite H. Qed.

(** X1. The NotInterested phrases that contain the word "interested" ("not
    interested", "no longer interested") never make a message NotInterested:
    the Interested rule, which comes first, matches "interested" in any text
    that contains them, so such a message is OutOfOffice, Spam,
    MeetingBooked or Interested. *)
Theorem notInterested_phrases_shadowed :
  filter (λ p, Is_true (JS.includes p "interested")) notInterestedPatterns
  = ["not interested"; "no longer interested"]
  ∧ ∀ (email : Email) (p : string),
      JS.includes p "interested" = true →
      JS.includes (textOf email) p = true →
      categorizeEmail email ∈ [OUT_OF_OFFICE; SPAM; MEETING_BOOKED; INTERESTED].
Proof.
  split; [by vm_compute|].
  intros email p Hp Htext.
  assert (Hint : isInterested (textOf email) = true).
  { apply some_true. exists "interested". split.
    - apply list_elem_of_In. simpl. tauto.
    - by apply (includes_trans _ p). }
  unfold categorizeEmail. rewrite Hint.
  destruct (isOutOfOffice _); [set_solver|].
  destruct (isSpam _ _); [set_solver|].
  destruct (isMeetingBooked _); set_solver.
Qed.

Lemma notInterested_phrases_shadowed_witness :
  categorizeEmail declined ∈ [OUT_OF_OFFICE; SPAM; MEETING_BOOKED; INTERESTED].
Proof.
  apply (proj2 notInterested_phrases_shadowed declined "not interested");
    vm_compute; reflexivity.
Defined.

(** X2. The category does not depend on the letter case of the body, nor on
    any field other than subject, body and sender: two messages with the
    same subject, the same sender and bodies that are equal up to case get
    the same category. *)
Theorem categorizeEmail_body_case (e1 e2 : Email) :
  subject e1 = subject e2 → from e1 = from e2 →
  JS.toLowerCase (body e1) = JS.toLowerCase (body e2) →
  categorizeEmail e1 = categorizeEmail e2.
Proof.
  intros Hs Hf Hb.
  assert (Ht : textOf e1 = textOf e2)
    by (by rewrite !CategorizationProofs.textOf_split, Hs, Hb).
  unfold categorizeEmail, isSpam, excessiveCaps, capsPercentage, suspiciousFrom.
  by rewrite Ht, Hs, Hf.
Qed.

Lemma categorizeEmail_body_case_witness :
  categorizeEmail awayShouting = categorizeEmail awayQuiet.
Proof.
  apply categorizeEmail_body_case; [reflexivity | reflexivity |].
  vm_compute. reflexivity.
Defined.

(** X3. An OutOfOffice phrase anywhere in the subject or in the body, in
    any letter case, makes the message OutOfOffice, whatever else it
    says and whoever sent it. *)
Theorem outOfOffice_anywhere (email : Email) (p : string) :
  p ∈ outOfOfficePatterns →
  JS.includes (JS.toLowerCase (subject email)) p = true
  ∨ JS.includes (JS.toLowerCase (body email)) p = true →
  categorizeEmail email = OUT_OF_OFFICE.
Proof.
  intros Hp Hin. apply isOutOfOffice_decides, some_true.
  exists p. split; [exact Hp|].
  rewrite CategorizationProofs.textOf_split.
  destruct Hin as [H|H].
  - by apply includes_app_l, includes_app_l.
  - by apply includes_app_r.
Qed.

Lemma outOfOffice_anywhere_witness :
  categorizeEmail awayShouting = OUT_OF_OFFICE.
Proof.
  apply (outOfOffice_anywhere awayShouting "out of office").
  - apply list_elem_of_In. simpl. tauto.
  - right. vm_compute. reflexivity.
Defined.

(** X4. Subject and body are joined by one blank before the rules look at
    them, so a phrase also matches across the join: when the lower-cased
    subject ends with the words before a blank of an OutOfOffice phrase and
    the lower-cased body starts with the words after it, the message is
    OutOfOffice. *)
Theorem outOfOffice_across_join (email : Email) (before p1 p2 after : string) :
  JS.toLowerCase (subject email) = before +:+ p1 →
  JS.toLowerCase (body email) = p2 +:+ after →
  p1 +:+ " " +:+ p2 ∈ outOfOfficePatterns →
  categorizeEmail email = OUT_OF_OFFICE.
Proof.
  intros Hs Hb Hp. apply isOutOfOffice_decides, some_true.
  exists (p1 +:+ " " +:+ p2). split; [exact Hp|].
  apply includes_iff. exists before, after.
  rewrite CategorizationProofs.textOf_split, Hs, Hb.
  by rewrite <- !append_assoc.
Qed.

Lemma outOfOffice_across_join_witness :
  categorizeEmail autoThenReply = OUT_OF_OFFICE.
Proof.
  apply (outOfOffice_across_join autoThenReply "your new " "auto" "reply"
           " to confirm the delivery date.").
  - vm_compute. reflexivity.
  - vm_compute. reflexivity.
  - apply list_elem_of_In. simpl. tauto.
Defined.

(** X5. The capitals heuristic needs all three of its parts: a message
    whose sender has an "@" and neither "noreply" nor "no-reply", or whose
    subject has at most 10 characters, or at most half of whose subject is
    capitals, is Spam only if a spam phrase occurs in its text. *)
Theorem spam_needs_phrase (email : Email) :
  (JS.includes (from email) "@" = true
   ∧ JS.includes (from email) "noreply" = false
   ∧ JS.includes (from email) "no-reply" = false)
  ∨ (String.length (subject email) <= 10)%nat
  ∨ (2 * JS.countUpper (subject email) <= String.length (subject email))%nat →
  categorizeEmail email = SPAM →
  ∃ p, p ∈ spamPatterns ∧ JS.includes (textOf email) p = true.
Proof.
  intros Hoff Hspam. apply CategorizationProofs.hasSpamPattern_true.
  assert (Hh : excessiveCaps email && suspiciousFrom email = false).
  { apply andb_false_iff. destruct Hoff as [(H1 & H2 & H3)|[H|H]].
    - right. unfold suspiciousFrom. by rewrite H1, H2, H3.
    - left. unfold excessiveCaps. apply andb_false_iff. right.
      apply Nat.ltb_ge. lia.
    - left. unfold excessiveCaps, capsPercentage. apply andb_false_iff. left.
      apply not_true_iff_false. rewrite gt_div_half. lia. }
  revert Hspam. unfold categorizeEmail, isSpam. rewrite Hh, orb_false_r.
  destruct (isOutOfOffice _); [discriminate|].
  destruct (hasSpamPattern _); [done|].
  destruct (isMeetingBooked _); [discriminate|].
  destruct (isInterested _); [discriminate|].
  destruct (isNotInterested _); discriminate.
Qed.

Lemma spam_needs_phrase_witness :
  ∃ p, p ∈ spamPatterns ∧ JS.includes (textOf lotteryFromColleague) p = true.
Proof.
  apply spam_needs_phrase.
  - left. vm_compute. repeat split; reflexivity.
  - vm_compute. reflexivity.
Defined.

End CategorizationExtras.

(** ** Reply retrieval engine, continued *)

Section SortAppend.
Context {A : Type} (compareFn : A → A → comparison).

(** An element that every element of the array may stand before stays last. *)
Lemma insertSorted_snoc (y x : A) (l : list A) :
  notAfter compareFn y x → Forall (λ z, notAfter compareFn z x) l →
  JS.insertSorted compareFn y (l ++ [x]) = JS.insertSorted compareFn y l ++ [x].
Proof.
  intros Hy Hl. induction Hl as [|z l Hz Hl IH]; simpl.
  - unfold notAfter in Hy. by destruct (compareFn y x).
  - destruct (compareFn y z); try done. by rewrite IH.
Qed.

Lemma sort_snoc (x : A) (l : list A) :
  Forall (λ z, notAfter compareFn z x) l →
  JS.sort compareFn (l ++ [x]) = JS.sort compareFn l ++ [x].
Proof.
  intros Hl. induction Hl as [|y l Hy Hl IH]; simpl; [done|].
  rewrite IH. apply insertSorted_snoc; [exact Hy|].
  by rewrite (sort_perm compareFn l).
Qed.

End SortAppend.

Module RAGExtras.
Import RAGService.

Lemma filter_all {A} (P : A → Prop) `{!∀ x, Decision (P x)} (l : list A) :
  Forall P l → filter P l = l.
Proof.
  induction 1 as [|x l Hx Hl IH]; [done|].
  by rewrite filter_cons, decide_True, IH.
Qed.

Lemma filter_none {A} (P : A → Prop) `{!∀ x, Decision (P x)} (l : list A) :
  filter P l = [] ↔ Forall (λ x, ¬ P x) l.
Proof.
  induction l as [|x l IH]; [split; [constructor | done]|].
  rewrite filter_cons, Forall_cons. destruct (decide (P x)) as [Hx|Hx].
  - split; [discriminate | intros [Hnot _]; by destruct Hnot].
  - rewrite IH. tauto.
Qed.

Lemma Qeq_self (n : nat) : (1 <= n)%nat → (Z.of_nat n # Pos.of_nat n == 1)%Q.
Proof.
  intros Hn. destruct n as [|n]; [lia|].
  unfold Qeq. cbn [Qnum Qden]. rewrite Zpos_of_nat_S. lia.
Qed.

(** X6. Two texts that are equal up to letter case score 1; in particular
    every text scores 1 against itself, the empty text included. *)
Theorem calculateSimilarity_same (a b : string) :
  JS.toLowerCase a = JS.toLowerCase b →
  ∃ q, calculateSimilarity a b = JS.Num q ∧ (q == 1)%Q.
Proof.
  intros Hab. rewrite RAGProofs.calculateSimilarity_common.
  unfold common. rewrite Hab.
  set (words := JS.split (JS.toLowerCase b)).
  rewrite filter_all by (by apply Forall_forall).
  rewrite Nat.max_id.
  pose proof (RAGProofs.split_length (JS.toLowerCase b)) as Hlen. fold words in Hlen.
  destruct (length words) as [|n] eqn:Hn; [lia|].
  eexists. split; [reflexivity|]. apply Qeq_self. lia.
Qed.

Lemma calculateSimilarity_same_witness :
  ∃ q, calculateSimilarity thanksLower "Thank You" = JS.Num q ∧ (q == 1)%Q.
Proof. apply calculateSimilarity_same. reflexivity. Defined.

(** X7. A score is 0 exactly when no word of the first text is among the
    words of the second. *)
Theorem calculateSimilarity_zero (a b : string) :
  (∃ q, calculateSimilarity a b = JS.Num q ∧ (q == 0)%Q)
  ↔ ∀ w, w ∈ JS.split (JS.toLowerCase a) → w ∉ JS.split (JS.toLowerCase b).
Proof.
  rewrite RAGProofs.calculateSimilarity_common.
  pose proof (RAGProofs.split_length (JS.toLowerCase a)) as Hlen.
  set (n := Nat.max _ _).
  assert (Hn : (1 <= n)%nat) by (unfold n; lia).
  destruct n as [|n]; [lia|]. cbn [JS.div].
  assert (Hc : common a b = []
               ↔ ∀ w, w ∈ JS.split (JS.toLowerCase a)
                      → w ∉ JS.split (JS.toLowerCase b)).
  { unfold common. by rewrite filter_none, Forall_forall. }
  rewrite <- Hc. split.
  - intros (q & [= <-] & Hq). unfold Qeq in Hq. cbn [Qnum Qden] in Hq.
    apply nil_length_inv. lia.
  - intros ->. eexists. split; [reflexivity|]. done.
Qed.

Lemma calculateSimilarity_zero_witness :
  ∃ q, calculateSimilarity "see you" "My salary expectation is negotiable."
       = JS.Num q ∧ (q == 0)%Q.
Proof.
  apply calculateSimilarity_zero. apply Forall_forall. compute_done.
Defined.

Lemma generateWithRules_link (email : Email) (context : list string) :
  JS.includes (generateWithRules email context) bookingLink = true.
Proof.
  assert (H : Forall (λ t, JS.includes t bookingLink = true) templates)
    by (repeat constructor; by vm_compute).
  rewrite Forall_forall in H. apply H, RAGProofs.generateWithRules_templates.
Qed.

(** X8. Without a collaborator the reply depends on nothing but the subject
    and the body, up to letter case: the stored snippets, the sender and the
    other fields of the message never influence it.  It always contains the
    booking link https://cal.com/example. *)
Theorem rule_based_reply (e1 e2 : Email) (s1 s2 : t) :
  openai s1 = None → openai s2 = None →
  JS.toLowerCase (subject e1) = JS.toLowerCase (subject e2) →
  JS.toLowerCase (body e1) = JS.toLowerCase (body e2) →
  fst (generateReply e1 s1) = fst (generateReply e2 s2)
  ∧ ∃ reply, fst (generateReply e1 s1) = Async.Ok reply
             ∧ JS.includes reply bookingLink = true.
Proof.
  intros H1 H2 Hs Hb.
  assert (Hrun : ∀ e s, openai s = None →
    fst (generateReply e s) = Async.Ok (generateWithRules e [])).
  { intros e s Hnone. unfold generateReply, retrieveRelevantContext.
    by rewrite Hnone. }
  assert (Htext : JS.toLowerCase (JS.template2 (subject e1) (body e1))
                  = JS.toLowerCase (JS.template2 (subject e2) (body e2))).
  { unfold JS.template2. by rewrite !toLowerCase_app, Hs, Hb. }
  rewrite !Hrun by done. split.
  - f_equal. unfold generateWithRules. by rewrite Htext.
  - eexists. split; [reflexivity|]. apply generateWithRules_link.
Qed.

Lemma rule_based_reply_witness :
  fst (generateReply awayShouting ruleBased)
  = fst (generateReply awayQuiet ruleBasedGrown).
Proof.
  apply rule_based_reply; reflexivity.
Defined.

Lemma scoreDocs_addContextDocument (id text emailText : string) (self : t) :
  scoreDocs (addContextDocument id text self) emailText
  = scoreDocs self emailText
    ++ [(ContextDocument.mk id text, calculateSimilarity emailText text)].
Proof. unfold scoreDocs, addContextDocument. cbn [contextDocs]. by rewrite map_app. Qed.

Lemma no_common_word_score (a b : string) :
  (∀ w, w ∈ JS.split (JS.toLowerCase a) → w ∉ JS.split (JS.toLowerCase b)) →
  ∃ q, calculateSimilarity a b = JS.Num q ∧ (q == 0)%Q.
Proof.
  intros Hnone. rewrite RAGProofs.calculateSimilarity_common.
  assert (Hc : common a b = []).
  { unfold common. by rewrite filter_none, Forall_forall. }
  rewrite Hc.
  pose proof (RAGProofs.split_length (JS.toLowerCase a)) as Hlen.
  destruct (Nat.max _ _) as [|n] eqn:Hn; [lia|].
  eexists. split; [reflexivity|]. done.
Qed.

(** X9. A snippet that is added last and scores no higher than any stored
    snippet does not change what retrieval returns once three snippets are
    stored; so it is for every snippet that has no word in common with the
    message text. *)
Theorem addContextDocument_low_score (id text emailText : string) (self : t) :
  (3 <= length (contextDocs self))%nat →
  (∀ doc, doc ∈ contextDocs self →
          JS.subSign (calculateSimilarity emailText text)
                     (calculateSimilarity emailText (ContextDocument.text doc))
          ≠ Gt)
  ∨ (∀ w, w ∈ JS.split (JS.toLowerCase emailText)
          → w ∉ JS.split (JS.toLowerCase text)) →
  fst (retrieveRelevantContext emailText (addContextDocument id text self))
  = fst (retrieveRelevantContext emailText self).
Proof.
  intros Hthree Hlow.
  assert (Hle : ∀ doc, doc ∈ contextDocs self →
          JS.subSign (calculateSimilarity emailText text)
                     (calculateSimilarity emailText (ContextDocument.text doc))
          ≠ Gt).
  { destruct Hlow as [H|H]; [exact H|]. intros doc _.
    destruct (no_common_word_score emailText text H) as (q0 & -> & Hq0).
    destruct (RAGProofs.calculateSimilarity_Num emailText (ContextDocument.text doc))
      as (q & -> & Hq & _).
    cbn [JS.subSign]. apply Qle_alt. by rewrite Hq0. }
  unfold retrieveRelevantContext, topScored. cbn [fst]. f_equal.
  rewrite scoreDocs_addContextDocument, sort_snoc.
  - unfold JS.slice0. apply take_app_le.
    rewrite sort_length. unfold scoreDocs. by rewrite length_map.
  - apply Forall_forall. intros item Hitem.
    unfold scoreDocs in Hitem. apply list_elem_of_In, in_map_iff in Hitem
      as (doc & <- & Hdoc).
    unfold notAfter, byScoreDesc. cbn [snd].
    apply Hle. by apply list_elem_of_In.
Qed.

Lemma addContextDocument_low_score_witness :
  fst (retrieveRelevantContext "see you"
         (addContextDocument "salary" "My salary expectation is negotiable."
            ruleBased))
  = fst (retrieveRelevantContext "see you" ruleBased).
Proof.
  apply addContextDocument_low_score.
  - vm_compute. lia.
  - right. apply Forall_forall. compute_done.
Defined.

End RAGExtras.

(** ** Counting *)

Module ConnectorCounting.

Lemma countWhere_app {A} (f : A → bool) (l k : list A) :
  countWhere f (l ++ k) = (countWhere f l + countWhere f k)%nat.
Proof. induction l as [|x l IH]; simpl; [done | lia]. Qed.

Lemma countWhere_delete {A} (f : A → bool) (l : list A) (n : nat) (x : A) :
  l !! n = Some x →
  (countWhere f (delete n l) + (if f x then 1 else 0))%nat = countWhere f l.
Proof.
  revert n. induction l as [|y l IH]; intros [|n] H; try done.
  - injection H as ->. simpl. lia.
  - simpl in *. specialize (IH n H). lia.
Qed.

Lemma countWhere_zero {A} (f : A → bool) (l : list A) :
  countWhere f l = 0%nat ↔ existsb f l = false.
Proof.
  induction l as [|x l IH]; simpl; [done|].
  destruct (f x); simpl; [split; [lia | done] | exact IH].
Qed.

End ConnectorCounting.

(** ** Pipeline coordinator, continued *)

Module PipelineExtras.
Import EmailSyncServer.

Lemma getEmailById_run (getRejects : string → bool) (emailId : string) (w : World) :
  ElasticsearchQueries.getEmailById getRejects emailId w
  = (Async.Ok match documents w !! emailId with
              | Some email => if getRejects emailId then None else Some email
              | None => None
              end, w).
Proof.
  unfold ElasticsearchQueries.getEmailById, ElasticsearchQueries.client_get,
    Async.tryCatch, Async.bind, Async.ret.
  destruct (documents w !! emailId); [|done]. by destruct (getRejects emailId).
Qed.

Lemma append_inj_r (a x y : string) : a +:+ x = a +:+ y → x = y.
Proof.
  induction a as [|c a IH]; [done|].
  rewrite !append_cons. intros [= H]. by apply IH.
Qed.

Lemma handleNewEmail_documents (C : Config) (F : Faults) (email : Email) (w : World) :
  let stored := setCategory email (Some (CategorizationService.categorizeEmail email)) in
  documents (snd (handleNewEmail C F email w))
  = if indexRejects F stored then documents w
    else <[id email := stored]> (documents w).
Proof.
  intros stored. rewrite ServerProofs.handleNewEmail_run. fold stored. cbn [snd].
  by destruct (indexRejects F stored).
Qed.

(** X10. A message the coordinator has handled is found again under its id:
    when the index takes the write, [getEmailById] returns the message with
    the category the categorizer gave it.  Handling a message never changes
    what is found under any other id. *)
Theorem handled_message_is_found
    (C : Config) (F : Faults) (getRejects : string → bool)
    (email : Email) (w : World) :
  let stored := setCategory email (Some (CategorizationService.categorizeEmail email)) in
  let w' := snd (handleNewEmail C F email w) in
  (indexRejects F stored = false → getRejects (id email) = false →
   fst (ElasticsearchQueries.getEmailById getRejects (id email) w')
   = Async.Ok (Some stored))
  ∧ (∀ other, other ≠ id email →
       fst (ElasticsearchQueries.getEmailById getRejects other w')
       = fst (ElasticsearchQueries.getEmailById getRejects other w)).
Proof.
  intros stored w'.
  assert (Hdocs := handleNewEmail_documents C F email w).
  cbv zeta in Hdocs. fold stored w' in Hdocs.
  split.
  - intros Hok Hget. rewrite getEmailById_run. cbn [fst].
    by rewrite Hdocs, Hok, lookup_insert_eq, Hget.
  - intros other Hne. rewrite !getEmailById_run. cbn [fst]. rewrite Hdocs.
    destruct (indexRejects F stored); [done|]. by rewrite lookup_insert_ne.
Qed.

Lemma handled_message_is_found_witness :
  fst (ElasticsearchQueries.getEmailById getsAnswered "account1-5"
         (snd (handleNewEmail bothSinks sinksDown interestedLead emptyWorld)))
  = Async.Ok (Some (setCategory interestedLead (Some INTERESTED))).
Proof.
  apply (proj1 (handled_message_is_found bothSinks sinksDown getsAnswered
                  interestedLead emptyWorld)); reflexivity.
Defined.

(** X11. Once the index has taken a message, handling the same message
    (same id) again never changes what the index holds, whether the second
    write is accepted or refused and however the outside world answers the
    second time.  When the second write is accepted too, the outside world
    is asked the same things again, the notifications of an Interested
    message included. *)
Theorem redelivery_upserts
    (C : Config) (F1 F2 : Faults) (email : Email) (w : World) :
  let stored := setCategory email (Some (CategorizationService.categorizeEmail email)) in
  let once := snd (handleNewEmail C F1 email w) in
  let twice := snd (handleNewEmail C F2 email once) in
  indexRejects F1 stored = false →
  documents once = <[id email := stored]> (documents w)
  ∧ documents twice = documents once
  ∧ (indexRejects F2 stored = false →
     ∃ asked, calls once = calls w ++ asked ∧ calls twice = calls once ++ asked).
Proof.
  intros stored once twice Hfirst. subst once twice.
  split; [by rewrite handleNewEmail_documents; fold stored; rewrite Hfirst|].
  split.
  - rewrite !handleNewEmail_documents. fold stored. rewrite Hfirst.
    destruct (indexRejects F2 stored); [done|]. by rewrite insert_insert_eq.
  - intros Hsecond. rewrite !ServerProofs.handleNewEmail_run. fold stored.
    rewrite Hfirst, Hsecond. cbn [snd calls].
    eexists. split; reflexivity.
Qed.

Lemma redelivery_upserts_witness :
  documents (snd (handleNewEmail bothSinks indexDown interestedLead
                    (snd (handleNewEmail bothSinks sinksDown interestedLead
                            emptyWorld))))
  = documents (snd (handleNewEmail bothSinks sinksDown interestedLead emptyWorld)).
Proof.
  apply (redelivery_upserts bothSinks sinksDown indexDown interestedLead
           emptyWorld).
  reflexivity.
Defined.

(** X12. The id of a normalized message is the account id, a dash and the
    token of [uuidv4()]: two normalizations of the same parsed mail, at
    whatever times and with whatever sequence numbers, have the same id only
    if the token was the same, and they agree in account, folder, sender,
    recipients, subject, body, html and category, and in the date when the
    mail carries one.  So a mail that is fetched twice with two different
    tokens is stored twice: handled one after the other, when the index
    accepts both writes both messages are found under their ids, and the
    index has grown by two documents if neither id was in use. *)
Theorem refetch_stores_twice
    (C : Config) (F1 F2 : Faults) (config : IMAPConfig.t)
    (uuid1 uuid2 : string) (now1 now2 seqno1 seqno2 attrUid1 attrUid2 : Z)
    (parsed : ParsedMail.t) (w : World) :
  let e1 := Normalizer.normalize config uuid1 now1 seqno1 attrUid1 parsed in
  let e2 := Normalizer.normalize config uuid2 now2 seqno2 attrUid2 parsed in
  let stored1 := setCategory e1 (Some (CategorizationService.categorizeEmail e1)) in
  let stored2 := setCategory e2 (Some (CategorizationService.categorizeEmail e2)) in
  let w2 := snd ((let* _ := ServerSetup.onEmail C F1
                              (Normalizer.onParsed config uuid1 now1 seqno1
                                 attrUid1 (Async.Ok parsed)) in
                  ServerSetup.onEmail C F2
                    (Normalizer.onParsed config uuid2 now2 seqno2 attrUid2
                       (Async.Ok parsed))) w) in
  (id e1 = id e2 ↔ uuid1 = uuid2)
  ∧ (accountId e1 = accountId e2 ∧ folder e1 = folder e2 ∧ from e1 = from e2
     ∧ to e1 = to e2 ∧ subject e1 = subject e2 ∧ body e1 = body e2
     ∧ html e1 = html e2
     ∧ CategorizationService.categorizeEmail e1
       = CategorizationService.categorizeEmail e2
     ∧ (ParsedMail.date parsed ≠ None → date e1 = date e2))
  ∧ (uuid1 ≠ uuid2 →
     indexRejects F1 stored1 = false → indexRejects F2 stored2 = false →
     documents w2 !! id e1 = Some stored1
     ∧ documents w2 !! id e2 = Some stored2
     ∧ (documents w !! id e1 = None → documents w !! id e2 = None →
        size (documents w2) = (size (documents w) + 2)%nat)).
Proof.
  intros e1 e2 stored1 stored2 w2.
  assert (Hids : id e1 = id e2 ↔ uuid1 = uuid2).
  { cbn. split; [|by intros ->].
    intros H. by apply append_inj_r, append_inj_r in H. }
  split; [exact Hids|]. split.
  { repeat split; try reflexivity.
    cbn. destruct (ParsedMail.date parsed); [done | by intros []]. }
  intros Hne Hok1 Hok2.
  assert (Hdocs : documents w2
    = <[id e2 := stored2]> (<[id e1 := stored1]> (documents w))).
  { subst w2. unfold Async.bind, ServerSetup.onEmail, Normalizer.onParsed.
    fold e1 e2.
    destruct (handleNewEmail C F1 e1 w) as [r w1] eqn:H1.
    assert (Hr : r = Async.Ok tt ∧ w1 = snd (handleNewEmail C F1 e1 w))
      by (rewrite H1; split; [|done];
          rewrite ServerProofs.handleNewEmail_run in H1; by injection H1).
    destruct Hr as [-> ->].
    rewrite !handleNewEmail_documents. fold stored1 stored2.
    by rewrite Hok1, Hok2. }
  assert (Hdiff : id e1 ≠ id e2) by (intros H; by apply Hne, Hids).
  rewrite Hdocs.
  split; [by rewrite lookup_insert_ne, lookup_insert_eq|].
  split; [by rewrite lookup_insert_eq|].
  intros Hfresh1 Hfresh2.
  rewrite !map_size_insert_None; [lia|done|].
  by rewrite lookup_insert_ne.
Qed.

Lemma refetch_stores_twice_witness :
  size (documents
          (snd ((let* _ := ServerSetup.onEmail bothSinks sinksDown
                             (Normalizer.onParsed account1 uuidA 1700000100 1 41
                                (Async.Ok parsedLead)) in
                 ServerSetup.onEmail bothSinks allUp
                   (Normalizer.onParsed account1 uuidB 1700003600 7 0
                      (Async.Ok parsedLead))) emptyWorld))) = 2.
Proof.
  apply (refetch_stores_twice bothSinks sinksDown allUp account1 uuidA uuidB
           1700000100 1700003600 1 7 41 0 parsedLead emptyWorld); try done.
Defined.

(** X13. The coordinator makes an HTTP request only for a message that is
    Interested and that the index has taken, and only to a sink whose URL is
    configured: with no URL configured, no request is ever made. *)
Theorem posts_only_for_interested
    (C : Config) (F : Faults) (email : Email) (w : World)
    (asked : list Call) (url : string) :
  calls (snd (handleNewEmail C F email w)) = calls w ++ asked →
  AxiosPost url ∈ asked →
  CategorizationService.categorizeEmail email = INTERESTED
  ∧ indexRejects F (setCategory email
                      (Some (CategorizationService.categorizeEmail email))) = false
  ∧ url ≠ EmptyString
  ∧ (url = slack_webhookUrl C ∨ url = webhook_url C).
Proof.
  rewrite ServerProofs.handleNewEmail_run. cbn [snd].
  destruct (indexRejects F _) eqn:Hrej; cbn [calls]; intros Hcalls Hin;
    apply app_inv_head in Hcalls; subst asked.
  - apply list_elem_of_singleton in Hin. discriminate.
  - apply elem_of_cons in Hin as [Hin|Hin]; [discriminate|].
    destruct (CategorizationService.categorizeEmail email);
      try (by apply elem_of_nil in Hin).
    split; [done|]. split; [done|].
    unfold notificationCalls in Hin.
    destruct (JS.truthy (slack_webhookUrl C)) eqn:Hs,
             (JS.truthy (webhook_url C)) eqn:Hw;
      repeat (apply elem_of_cons in Hin as [Hin|Hin];
              [first [discriminate | injection Hin as ->]|]);
      try (by apply elem_of_nil in Hin);
      (split; [by apply RAGProofs.truthy_nonempty | by auto]).
Qed.

Lemma posts_only_for_interested_witness :
  CategorizationService.categorizeEmail interestedLead = INTERESTED
  ∧ indexRejects sinksDown
      (setCategory interestedLead
         (Some (CategorizationService.categorizeEmail interestedLead))) = false
  ∧ "https://webhook.example/in" ≠ EmptyString
  ∧ ("https://webhook.example/in" = slack_webhookUrl bothSinks
     ∨ "https://webhook.example/in" = webhook_url bothSinks).
Proof.
  apply (posts_only_for_interested bothSinks sinksDown interestedLead emptyWorld
           [ClientIndex "account1-5" (setCategory interestedLead (Some INTERESTED));
            SendSlackNotification (setCategory interestedLead (Some INTERESTED));
            AxiosPost "https://hooks.slack.example/T0";
            TriggerWebhook (setCategory interestedLead (Some INTERESTED));
            AxiosPost "https://webhook.example/in"]).
  - vm_compute. reflexivity.
  - set_solver.
Defined.

Lemma handleNewEmail_index_calls (C : Config) (F : Faults) (email : Email) (w : World) :
  countWhere isClientIndex (calls (snd (handleNewEmail C F email w)))
  = S (countWhere isClientIndex (calls w)).
Proof.
  rewrite ServerProofs.handleNewEmail_run. cbn [snd].
  assert (Hn : ∀ e, countWhere isClientIndex (notificationCalls C e) = 0%nat).
  { intros e. unfold notificationCalls.
    by destruct (JS.truthy (slack_webhookUrl C)), (JS.truthy (webhook_url C)). }
  destruct (indexRejects F _); cbn [calls];
    rewrite ConnectorCounting.countWhere_app;
    cbn [countWhere isClientIndex]; [lia|].
  destruct (CategorizationService.categorizeEmail email);
    rewrite ?Hn; cbn [countWhere]; lia.
Qed.

(** X21. A message that does not parse is skipped and costs nothing: a
    fetched batch leaves the world exactly as the same batch without the
    messages that failed to parse.  Handling a batch never fails, and the
    index is asked for one write per parsed message. *)
Theorem parse_failures_are_skipped
    (C : Config) (F : Faults) (config : IMAPConfig.t)
    (batch : list Delivery.Fetched) (w : World) :
  Delivery.deliverAll C F config batch w
  = Delivery.deliverAll C F config
      (filter (λ m, Is_true (Delivery.isParsed m)) batch) w
  ∧ fst (Delivery.deliverAll C F config batch w) = Async.Ok tt
  ∧ countWhere isClientIndex (calls (snd (Delivery.deliverAll C F config batch w)))
    = (countWhere isClientIndex (calls w)
       + length (filter (λ m, Is_true (Delivery.isParsed m)) batch))%nat.
Proof.
  revert w. induction batch as [|m batch IH]; intros w.
  - cbn. repeat split; lia.
  - destruct m as [u nw sq au [parsed|err]].
    + rewrite filter_cons, decide_True by done. cbn [Delivery.deliverAll].
      unfold Async.bind, Delivery.deliver, ServerSetup.onEmail, Normalizer.onParsed.
      cbn [Delivery.uuid Delivery.now Delivery.seqno Delivery.attrUid
           Delivery.outcome].
      set (email := Normalizer.normalize _ _ _ _ _ _).
      pose proof (handleNewEmail_index_calls C F email w) as Hcount.
      destruct (handleNewEmail C F email w) as [r w1] eqn:Hrun.
      assert (Hr : r = Async.Ok tt)
        by (rewrite ServerProofs.handleNewEmail_run in Hrun; by injection Hrun).
      subst r. cbn [snd] in Hcount.
      destruct (IH w1) as (IH1 & IH2 & IH3).
      split; [exact IH1|]. split; [exact IH2|].
      rewrite IH3, Hcount. cbn [length]. lia.
    + rewrite filter_cons, decide_False by (by intros []).
      cbn [Delivery.deliverAll].
      unfold Delivery.deliver, ServerSetup.onEmail, Normalizer.onParsed.
      cbn [Delivery.outcome]. unfold Async.bind, Async.ret. apply IH.
Qed.

Lemma parse_failures_are_skipped_witness :
  size (documents (snd (Delivery.deliverAll bothSinks allUp account1
                          batchOfThree emptyWorld))) = 2.
Proof.
  rewrite (proj1 (parse_failures_are_skipped bothSinks allUp account1
                    batchOfThree emptyWorld)).
  vm_compute. reflexivity.
Defined.

End PipelineExtras.

(** ** HTTP controller, continued *)

Module ControllerExtras.
Import EmailController.

Lemma categoryOfValue_categoryValue (c : EmailCategory) :
  categoryOfValue (categoryValue c) = Some c.
Proof. by destruct c. Qed.

Lemma updateEmailCategory_run (F : Faults) (emailId v : string) (w : World) :
  ElasticsearchService.updateEmailCategory F emailId v w
  = match documents w !! emailId with
    | Some old =>
        if updateRejects F emailId v
        then (Async.Throw "update rejected",
              mkWorld (documents w) (calls w ++ [ClientUpdate emailId v]))
        else (Async.Ok tt,
              mkWorld (alter (λ e, setCategory e (categoryOfValue v)) emailId
                             (documents w))
                      (calls w ++ [ClientUpdate emailId v]))
    | None => (Async.Throw "document missing",
               mkWorld (documents w) (calls w ++ [ClientUpdate emailId v]))
    end.
Proof.
  unfold ElasticsearchService.updateEmailCategory,
    ElasticsearchService.client_update, record, Async.tryCatch, Async.bind,
    Async.modify, Async.get, Async.throw.
  cbn [documents calls].
  destruct (documents w !! emailId); [|done].
  by destruct (updateRejects F emailId v).
Qed.

(** X14. A request with one of the six category values for a stored message
    that the index accepts is answered with status 200; afterwards the
    message is found under its id with the new category and every other
    field as before, every other message is as before, and the index was
    asked for exactly one update. *)
Theorem updateCategory_updates
    (F : Faults) (getRejects : string → bool) (req : Request) (w : World)
    (c : EmailCategory) (old : Email) :
  let w' := snd (updateCategory F req w) in
  body_category req = JString (categoryValue c) →
  documents w !! params_id req = Some old →
  updateRejects F (params_id req) (categoryValue c) = false →
  fst (updateCategory F req w)
  = Async.Ok {| status := 200; success := true; error := None;
                message := Some "Category updated successfully" |}
  ∧ documents w' !! params_id req = Some (setCategory old (Some c))
  ∧ (∀ other, other ≠ params_id req → documents w' !! other = documents w !! other)
  ∧ calls w' = calls w ++ [ClientUpdate (params_id req) (categoryValue c)]
  ∧ (getRejects (params_id req) = false →
     fst (ElasticsearchQueries.getEmailById getRejects (params_id req) w')
     = Async.Ok (Some (setCategory old (Some c)))).
Proof.
  intros w' Hcat Hold Hok. subst w'.
  assert (Hvalid : isCategoryValue (body_category req) = true)
    by (apply ControllerProofs.isCategoryValue_true; by exists c).
  assert (Hrun : updateCategory F req w
    = (Async.Ok {| status := 200; success := true; error := None;
                   message := Some "Category updated successfully" |},
       mkWorld (alter (λ e, setCategory e (Some c)) (params_id req) (documents w))
               (calls w ++ [ClientUpdate (params_id req) (categoryValue c)]))).
  { unfold updateCategory, Async.tryCatch at 1. unfold Async.bind.
    rewrite Hvalid. cbn [negb]. rewrite Hcat. cbn [asString].
    rewrite updateEmailCategory_run, Hold, Hok, categoryOfValue_categoryValue.
    reflexivity. }
  rewrite Hrun. cbn [fst snd documents calls].
  split; [done|].
  assert (Hnew : alter (λ e, setCategory e (Some c)) (params_id req) (documents w)
                 !! params_id req = Some (setCategory old (Some c)))
    by (by rewrite lookup_alter_eq, Hold).
  split; [exact Hnew|].
  split; [intros other Hne; by rewrite lookup_alter_ne|].
  split; [done|].
  intros Hget. rewrite PipelineExtras.getEmailById_run. cbn [fst documents].
  by rewrite Hnew, Hget.
Qed.

Lemma updateCategory_updates_witness :
  documents (snd (updateCategory noFaults
                    {| params_id := "account1-5";
                       body_category := JString "Not Interested" |} oneMessage))
    !! "account1-5"
  = Some (setCategory storedLead (Some NOT_INTERESTED)).
Proof.
  apply (updateCategory_updates noFaults getsAnswered
           {| params_id := "account1-5";
              body_category := JString "Not Interested" |}
           oneMessage NOT_INTERESTED storedLead); reflexivity.
Defined.

(** X15. A request with a valid category for an id under which nothing is
    stored, or for an update the index refuses, is answered with status 500
    and "Failed to update category", not with 404; the index was asked for
    the update once and holds what it held. *)
Theorem updateCategory_missing
    (F : Faults) (req : Request) (w : World) (c : EmailCategory) :
  let w' := snd (updateCategory F req w) in
  body_category req = JString (categoryValue c) →
  documents w !! params_id req = None
  ∨ updateRejects F (params_id req) (categoryValue c) = true →
  fst (updateCategory F req w)
  = Async.Ok {| status := 500; success := false;
                error := Some "Failed to update category"; message := None |}
  ∧ documents w' = documents w
  ∧ calls w' = calls w ++ [ClientUpdate (params_id req) (categoryValue c)].
Proof.
  intros w' Hcat Hmiss. subst w'.
  assert (Hvalid : isCategoryValue (body_category req) = true)
    by (apply ControllerProofs.isCategoryValue_true; by exists c).
  assert (Hrun : updateCategory F req w
    = (Async.Ok {| status := 500; success := false;
                   error := Some "Failed to update category"; message := None |},
       mkWorld (documents w)
               (calls w ++ [ClientUpdate (params_id req) (categoryValue c)]))).
  { unfold updateCategory, Async.tryCatch at 1. unfold Async.bind.
    rewrite Hvalid. cbn [negb]. rewrite Hcat. cbn [asString].
    rewrite updateEmailCategory_run.
    destruct (documents w !! params_id req) as [old|]; [|done].
    destruct Hmiss as [?|Hrej]; [done|]. by rewrite Hrej. }
  by rewrite Hrun.
Qed.

Lemma updateCategory_missing_witness :
  fst (updateCategory noFaults
         {| params_id := "account1-404"; body_category := JString "Spam" |}
         oneMessage)
  = Async.Ok {| status := 500; success := false;
                error := Some "Failed to update category"; message := None |}.
Proof.
  apply (updateCategory_missing noFaults
           {| params_id := "account1-404"; body_category := JString "Spam" |}
           oneMessage SPAM); [reflexivity | by left].
Defined.

Lemma generateReply_resolves (e : Email) (rag : RAGService.t) :
  ∃ reply, RAGService.generateReply e rag = (Async.Ok reply, rag)
           ∧ reply ≠ EmptyString.
Proof.
  unfold RAGService.generateReply, RAGService.retrieveRelevantContext.
  set (context := map _ _).
  destruct (RAGService.openai rag) as [client|].
  - unfold RAGService.generateWithOpenAI, Async.tryCatch, Async.bind,
      RAGService.create, RAGService.firstContent, Async.ret, Async.throw.
    destruct (client _) as [completion|err].
    + destruct (OpenAI.choices completion) as [|choice rest].
      * eexists. split; [reflexivity | apply RAGProofs.generateWithRules_nonempty].
      * destruct (OpenAI.message_content choice) as [content|].
        -- destruct (JS.truthy content) eqn:Ht; eexists; (split; [reflexivity|]).
           ++ by apply RAGProofs.truthy_nonempty.
           ++ apply RAGProofs.generateWithRules_nonempty.
        -- eexists. split; [reflexivity | apply RAGProofs.generateWithRules_nonempty].
    + eexists. split; [reflexivity | apply RAGProofs.generateWithRules_nonempty].
  - eexists. split; [reflexivity | apply RAGProofs.generateWithRules_nonempty].
Qed.

(** X16. The reply endpoint never answers 500 and changes neither the index
    nor the reply service.  It answers 404 "Email not found" when nothing is
    stored under the id or the index refuses the read, and otherwise 200
    with the stored message, a reply that is not empty and the confidence
    0.85, whatever the message and whatever the collaborator does. *)
Theorem generateReply_endpoint
    (getRejects : string → bool) (id : string) (w : World) (rag : RAGService.t) :
  ∃ resp,
    EmailControllerReads.generateReply getRejects id (w, rag)
    = (Async.Ok resp, (w, rag))
    ∧ EmailControllerReads.status resp ≠ 500
    ∧ match documents w !! id with
      | Some e =>
          if getRejects id then resp = EmailControllerReads.notFound
          else EmailControllerReads.status resp = 200
               ∧ EmailControllerReads.email resp = Some e
               ∧ (∃ reply, EmailControllerReads.suggestedReply resp = Some reply
                           ∧ reply ≠ EmptyString)
               ∧ EmailControllerReads.confidence resp = Some (85 # 100)
      | None => resp = EmailControllerReads.notFound
      end.
Proof.
  unfold EmailControllerReads.generateReply, EmailControllerReads.onIndex,
    EmailControllerReads.onReplies, Async.tryCatch, Async.bind.
  cbn [fst snd]. rewrite PipelineExtras.getEmailById_run.
  destruct (documents w !! id) as [e|].
  - destruct (getRejects id).
    + eexists. split; [reflexivity|]. by split.
    + destruct (generateReply_resolves e rag) as (reply & Hreply & Hne).
      cbn [fst snd]. rewrite Hreply.
      eexists. split; [reflexivity|]. cbn. split; [done|].
      split; [done|]. split; [done|]. split; [by exists reply | done].
  - eexists. split; [reflexivity|]. by split.
Qed.

(** X22. The lookup endpoint never answers 500 and changes nothing: it
    answers 200 with the stored message when there is one under the id and
    the index answers the read, and 404 "Email not found" in every other
    case, a refused read included. *)
Theorem getEmailById_endpoint
    (getRejects : string → bool) (id : string) (w : World) :
  ∃ resp,
    EmailControllerReads.getEmailById getRejects id w = (Async.Ok resp, w)
    ∧ EmailControllerReads.status resp ≠ 500
    ∧ (EmailControllerReads.status resp = 200
       ↔ ∃ e, documents w !! id = Some e ∧ getRejects id = false
              ∧ EmailControllerReads.email resp = Some e)
    ∧ (EmailControllerReads.status resp ≠ 200 →
       resp = EmailControllerReads.notFound).
Proof.
  unfold EmailControllerReads.getEmailById, Async.tryCatch, Async.bind.
  rewrite PipelineExtras.getEmailById_run.
  destruct (documents w !! id) as [e|].
  - destruct (getRejects id); eexists; (split; [reflexivity|]); cbn;
      (split; [done|]); split; try done.
    + split; [done | by intros (? & _ & ? & _)].
    + split; [by exists e | done].
  - eexists. split; [reflexivity|]. cbn. split; [done|]. split; [|done].
    split; [done | by intros (? & ? & _)].
Qed.

Lemma getEmailById_endpoint_witness :
  ∃ resp,
    EmailControllerReads.getEmailById getsAnswered "account1-404" oneMessage
    = (Async.Ok resp, oneMessage)
    ∧ resp = EmailControllerReads.notFound.
Proof.
  destruct (getEmailById_endpoint getsAnswered "account1-404" oneMessage)
    as (resp & Hrun & _ & H200 & H404).
  exists resp. split; [exact Hrun|]. apply H404.
  rewrite H200. intros (e & He & _). vm_compute in He. discriminate He.
Defined.

End ControllerExtras.

(** ** Starting and stopping the connectors *)

Module SetupExtras.
Import ServerSetup.

Lemma setup_foldl (accounts : list IMAPConfig.t)
    (imapServices : list (IMAPConfig.t * IMAPService.t)) :
  foldl (fun imapServices accountConfig =>
           if negb (JS.truthy (IMAPConfig.user accountConfig))
              || negb (JS.truthy (IMAPConfig.password accountConfig))
           then imapServices
           else imapServices ++ [(accountConfig, IMAPService.connect IMAPService.new)])
        imapServices accounts
  = imapServices
    ++ map (λ a, (a, IMAPService.connect IMAPService.new))
           (filter (λ a, Is_true (hasCredentials a)) accounts).
Proof.
  revert imapServices. induction accounts as [|a accounts IH]; intros acc.
  - by rewrite app_nil_r.
  - cbn [foldl]. rewrite IH, filter_cons.
    destruct (decide (Is_true (hasCredentials a))) as [Hc|Hc];
      unfold hasCredentials in Hc;
      destruct (JS.truthy (IMAPConfig.user a)),
               (JS.truthy (IMAPConfig.password a));
      cbn [negb orb andb] in *; try done.
    cbn [map]. by rewrite <- app_assoc.
Qed.

(** X17. [setupIMAPConnections] makes a connector for exactly the accounts
    that have a user and a password, in their order, and calls
    [imap.connect()] once on each.  No connector counts as connected before
    its connection is ready, so a [stop] that comes before that ends no
    connection: it leaves every connector as it is, still opening. *)
Theorem setup_then_stop (accounts : list IMAPConfig.t) :
  let services := setupIMAPConnections accounts in
  map fst services = filter (λ a, Is_true (hasCredentials a)) accounts
  ∧ Forall (λ service, justStarted (snd service)) services
  ∧ stop services = services.
Proof.
  intros services. subst services. unfold setupIMAPConnections.
  rewrite setup_foldl. cbn [app].
  induction (filter _ accounts) as [|a l (IH1 & IH2 & IH3)]; [by repeat split|].
  cbn [map fst]. split; [by rewrite IH1|].
  split; [constructor; [by repeat split | exact IH2]|].
  unfold stop in *. cbn [map fst snd]. by rewrite IH3.
Qed.

End SetupExtras.

(** ** Mailbox connector, continued *)

Module ConnectorExtras.
Import IMAPService ConnectorCounting.

(** What a step does to the timers, the listeners and the calls. *)
Ltac step_cases Hstep :=
  match type of Hstep with
  | step ?l ?self = Some _ =>
      destruct self as [c s r e n m k ts acts];
      destruct l as [| | | | |err|i]; cbn in Hstep;
      [ injection Hstep as <-; unfold connect; destruct c, s
      | injection Hstep as <-; unfold disconnect; destruct c, s
      | destruct s; try discriminate Hstep; destruct r;
          injection Hstep as <-
      | destruct s; try discriminate Hstep; destruct e;
          try discriminate Hstep; injection Hstep as <-
      | destruct s; try discriminate Hstep; destruct n;
          injection Hstep as <-
      | destruct k as [|k]; try discriminate Hstep; injection Hstep as <-;
          unfold onInboxOpened, startIdle, idleCheck; destruct err, c, s
      | let tm := fresh "tm" in
        let Htm := fresh "Htm" in
        destruct (ts !! i) as [tm|] eqn:Htm; try discriminate Hstep;
          injection Hstep as <-;
          pose proof (countWhere_delete isReconnect ts i tm Htm);
          pose proof (countWhere_delete isIdleCheck ts i tm Htm);
          destruct tm as [d []]; cbn [runCallback callback];
          unfold connect, idleCheck; destruct c, s ]
  end;
  cbn in *; rewrite ?countWhere_app in *; cbn in *.

Lemma step_reconnect_budget (l : Label) (self self' : t) :
  step l self = Some self' →
  (countWhere isReconnect (timers self) <= if endListener self then 0 else 1)%nat →
  (countWhere isReconnect (timers self') <= if endListener self' then 0 else 1)%nat.
Proof. intros Hstep. step_cases Hstep; lia. Qed.

Lemma step_no_more_reconnect (l : Label) (self self' : t) :
  step l self = Some self' →
  endListener self = false ∧ countWhere isReconnect (timers self) = 0%nat →
  endListener self' = false ∧ countWhere isReconnect (timers self') = 0%nat.
Proof. intros Hstep. step_cases Hstep; intros [? ?]; split; (done || lia). Qed.

Lemma run_ind_invariant (I : t → Prop) :
  (∀ l self self', step l self = Some self' → I self → I self') →
  ∀ ls self self', run ls self = Some self' → I self → I self'.
Proof.
  intros Hstep ls. induction ls as [|l ls IH]; intros self self' Hrun Hself.
  - by injection Hrun as <-.
  - cbn in Hrun. destruct (step l self) as [mid|] eqn:Hl; [|done].
    apply (IH mid self' Hrun). by apply (Hstep l self).
Qed.

(** X18. A connector schedules at most one reconnection in its life.  At
    most one reconnect timer is ever pending, none before the first [end];
    and once the connection has ended and that timer has fired, no later
    [end] schedules another: a second loss of the connection is final. *)
Theorem reconnects_at_most_once :
  (∀ ls self, run ls new = Some self →
     (countWhere isReconnect (timers self) <= if endListener self then 0 else 1)%nat)
  ∧ (∀ ls self self',
       endListener self = false → reconnectPending self = false →
       run ls self = Some self' →
       reconnectPending self' = false).
Proof.
  split.
  - intros ls self Hrun.
    apply (run_ind_invariant
             (λ s, (countWhere isReconnect (timers s)
                    <= if endListener s then 0 else 1)%nat)
             step_reconnect_budget ls new self Hrun).
    cbn. lia.
  - intros ls self self' He Hp Hrun.
    apply countWhere_zero.
    apply (run_ind_invariant
             (λ s, endListener s = false
                   ∧ countWhere isReconnect (timers s) = 0%nat)
             step_no_more_reconnect ls self self' Hrun).
    split; [exact He | by apply countWhere_zero].
Qed.

Lemma reconnects_at_most_once_witness :
  run [CallConnect; EmitEnd; TimerFires 0] new = Some reconnectedOnce
  ∧ ∃ final, run [EmitEnd] reconnectedOnce = Some final
             ∧ reconnectPending final = false.
Proof.
  split; [reflexivity|]. eexists. split; [reflexivity|].
  apply (proj2 reconnects_at_most_once [EmitEnd] reconnectedOnce); reflexivity.
Defined.

Lemma step_after_loss (l : Label) (self self' : t) :
  step l self = Some self' →
  readyListener self = false ∧ connected self = false
  ∧ openInboxPending self = 0%nat →
  (readyListener self' = false ∧ connected self' = false
   ∧ openInboxPending self' = 0%nat)
  ∧ ∃ j, actions self' = actions self ++ replicate j ImapConnect.
Proof.
  intros Hstep. step_cases Hstep; intros (? & ? & ?); try discriminate;
    (split; [done|]);
    first [ by exists 0%nat; rewrite app_nil_r
          | by exists 1%nat ].
Qed.

(** X19. A connector whose connection was ready once and is lost never
    counts as connected again.  Its [ready] listener is used up, so whatever
    happens afterwards (the reconnection, a second [ready], timers, calls
    of [connect] and [disconnect]) the only calls it makes into the library
    are [imap.connect()]: it opens no inbox, runs no backlog search and
    ends no connection. *)
Theorem never_connected_again (ls : list Label) (self self' : t) :
  readyListener self = false → connected self = false →
  openInboxPending self = 0%nat →
  run ls self = Some self' →
  connected self' = false
  ∧ ∃ j, actions self' = actions self ++ replicate j ImapConnect.
Proof.
  revert self. induction ls as [|l ls IH]; intros self Hr Hc Hk Hrun.
  - injection Hrun as <-. split; [done|]. exists 0%nat. by rewrite app_nil_r.
  - cbn in Hrun. destruct (step l self) as [mid|] eqn:Hl; [|done].
    destruct (step_after_loss l self mid Hl) as ((Hr' & Hc' & Hk') & j & Hj);
      [done|].
    destruct (IH mid Hr' Hc' Hk' Hrun) as (Hfinal & j' & Hj').
    split; [exact Hfinal|]. exists (j + j')%nat.
    by rewrite Hj', Hj, <- app_assoc, replicate_add.
Qed.

Lemma never_connected_again_witness :
  run [CallConnect; EmitReady; InboxOpened false; EmitEnd] new
  = Some lostAfterReady
  ∧ ∃ final, run afterTheLoss lostAfterReady = Some final
             ∧ connected final = false
             ∧ ∃ j, actions final
                    = actions lostAfterReady ++ replicate j ImapConnect.
Proof.
  split; [reflexivity|]. eexists. split; [reflexivity|].
  apply (never_connected_again afterTheLoss lostAfterReady); reflexivity.
Defined.

Lemma step_one_inbox (l : Label) (self self' : t) :
  step l self = Some self' →
  (if readyListener self
   then openInboxPending self = 0%nat ∧ mailListeners self = 0%nat
   else (openInboxPending self + mailListeners self <= 1)%nat)
  ∧ countWhere isIdleCheck (timers self) = mailListeners self
  ∧ countWhere isSearchSince (actions self) = mailListeners self →
  (if readyListener self'
   then openInboxPending self' = 0%nat ∧ mailListeners self' = 0%nat
   else (openInboxPending self' + mailListeners self' <= 1)%nat)
  ∧ countWhere isIdleCheck (timers self') = mailListeners self'
  ∧ countWhere isSearchSince (actions self') = mailListeners self'.
Proof.
  intros Hstep. step_cases Hstep; intros (? & ? & ?);
    repeat match goal with
           | H : _ ∧ _ |- _ => destruct H
           | r : bool |- _ => destruct r
           end;
    cbn in *; repeat split; lia.
Qed.

(** X20. In the whole life of a connector the inbox is set up at most once:
    at most one ['mail'] listener is ever registered, the backlog search
    runs at most once, and at most one keep-alive timer is pending at any
    time, exactly one from the moment the inbox was opened. *)
Theorem at_most_one_inbox_session (ls : list Label) (self : t) :
  run ls new = Some self →
  (mailListeners self <= 1)%nat
  ∧ countWhere isIdleCheck (timers self) = mailListeners self
  ∧ countWhere isSearchSince (actions self) = mailListeners self.
Proof.
  intros Hrun.
  assert (H := run_ind_invariant _ step_one_inbox ls new self Hrun).
  cbn in H. destruct H as (H1 & H2 & H3); [by repeat split|].
  split; [|by split].
  destruct (readyListener self); lia.
Qed.

Lemma at_most_one_inbox_session_witness :
  ∃ final, run afterTheLoss lostAfterReady = Some final
           ∧ countWhere isIdleCheck (timers final) = 1%nat
           ∧ countWhere isSearchSince (actions final) = 1%nat.
Proof.
  eexists. split; [reflexivity|].
  destruct (at_most_one_inbox_session
              ([CallConnect; EmitReady; InboxOpened false; EmitEnd] ++ afterTheLoss)
              {| connected := false; session := Authenticated;
                 readyListener := false; errorListener := true;
                 endListener := false; mailListeners := 1;
                 openInboxPending := 0;
                 timers := [ {| delay := 60000; callback := RunIdleCheck |} ];
                 actions := [ImapConnect; ImapOpenBox; ImapSearchSince;
                             ImapOpenBox; ImapConnect; ImapConnect] |})
    as (_ & H2 & H3); [reflexivity|].
  split; [exact H2 | exact H3].
Defined.

End ConnectorExtras.
